(** * Double pendulum: OCP transcription, sample generation and MPC loop

    A shallow embedding of [double_pendulum.ipynb].  Numbers are modelled as
    real numbers ([R]); CasADi symbolic expressions are modelled as functions
    of the values assigned to the decision variables; the nonlinear solver
    (ipopt) and the regression model are parameters. *)

From Stdlib Require Import Reals Lra Psatz List Arith Lia.
From Stdlib Require String.
Import ListNotations.

Open Scope R_scope.

(** ** Vectors and matrices of the shapes the notebook uses *)

(** A 4x1 column: the state [x], with components [x[0] .. x[3]]. *)
Record State : Type := mkState { x_0 : R; x_1 : R; x_2 : R; x_3 : R }.

(** A 2x1 column: the control [u], with components [u[0]], [u[1]]. *)
Record Control : Type := mkControl { u_0 : R; u_1 : R }.

(** [ca.vertcat] of four scalars. *)
Definition vertcat (a b c d : R) : State := mkState a b c d.

(** [x + y] and [dt * x] on 4x1 columns (elementwise). *)
Definition state_add (x y : State) : State :=
  mkState (x_0 x + x_0 y) (x_1 x + x_1 y) (x_2 x + x_2 y) (x_3 x + x_3 y).

Definition state_scale (a : R) (x : State) : State :=
  mkState (a * x_0 x) (a * x_1 x) (a * x_2 x) (a * x_3 x).

(** ** The plant: [plant_dynamics] *)

Module Plant.

Definition dt : R := 0.01.
Definition l1 : R := 1.
Definition l2 : R := 1.
Definition m1 : R := 1.
Definition m2 : R := 1.
Definition g : R := 9.81.

(** The last divisor shared by both acceleration expressions,
    [m2 * cos(-2*q2 + 2*q1) - 2*m1 - m2]. *)
Definition denominator (x : State) : R :=
  let q1 := x_0 x in
  let q2 := x_1 x in
  m2 * cos (-2 * q2 + 2 * q1) - 2 * m1 - m2.

Definition ddq1 (x : State) (u : Control) : R :=
  let q1 := x_0 x in let q2 := x_1 x in
  let dq1 := x_2 x in let dq2 := x_3 x in
  let u1 := u_0 u in let u2 := u_1 u in
  (l1 ^ 2 * l2 * m2 * dq1 ^ 2 * sin (-2 * q2 + 2 * q1)
   + 2 * u2 * cos (- q2 + q1) * l1
   + 2 * (g * sin (-2 * q2 + q1) * l1 * m2 / 2
          + sin (- q2 + q1) * dq2 ^ 2 * l1 * l2 * m2
          + g * l1 * (m1 + m2 / 2) * sin q1
          - u1) * l2
  ) / l1 ^ 2 / l2 / (m2 * cos (-2 * q2 + 2 * q1) - 2 * m1 - m2).

Definition ddq2 (x : State) (u : Control) : R :=
  let q1 := x_0 x in let q2 := x_1 x in
  let dq1 := x_2 x in let dq2 := x_3 x in
  let u1 := u_0 u in let u2 := u_1 u in
  (- g * l1 * l2 * m2 * (m1 + m2) * sin (- q2 + 2 * q1)
   - l1 * l2 ^ 2 * m2 ^ 2 * dq2 ^ 2 * sin (-2 * q2 + 2 * q1)
   - 2 * dq1 ^ 2 * l1 ^ 2 * l2 * m2 * (m1 + m2) * sin (- q2 + q1)
   + 2 * u1 * cos (- q2 + q1) * l2 * m2
   + l1 * (m1 + m2) * (sin q2 * g * l2 * m2 - 2 * u2)
  ) / l2 ^ 2 / l1 / m2 / (m2 * cos (-2 * q2 + 2 * q1) - 2 * m1 - m2).

(** The vector [x_next = vertcat(dq1, dq2, ddq1, ddq2)] of the source:
    the continuous-time right-hand side. *)
Definition rhs (x : State) (u : Control) : State :=
  vertcat (x_2 x) (x_3 x) (ddq1 x u) (ddq2 x u).

(** [plant_dynamics(x, u)]: [return x + dt * x_next]. *)
Definition plant_dynamics (x : State) (u : Control) : State :=
  state_add x (state_scale dt (rhs x u)).

End Plant.

Import Plant.

(** ** Python outcomes *)

(** The exceptions that matter here.  [RuntimeError] is what CasADi raises
    (a failed [opti.solve()], an out-of-range slice, a value asked of the
    solution of another [Opti]); [UnboundLocalError] is
    what Python raises when a local name is read before its first
    assignment.  [DynamicsSingularity] is the error kind named by the
    specification; no statement of the notebook raises it. *)
Inductive exn : Type :=
| RuntimeError
| UnboundLocalError
| DynamicsSingularity.

Inductive pyresult (A : Type) : Type :=
| Return (a : A)
| Raise (e : exn).

Arguments Return {A} a.
Arguments Raise {A} e.





(** ** Weight matrices and quadratic forms *)

(** A 4x4 matrix by rows ([Q]) and a 2x2 matrix by rows ([R]). *)
Record Mat4 : Type :=
  mkMat4 { row_0 : State; row_1 : State; row_2 : State; row_3 : State }.
Record Mat2 : Type := mkMat2 { rrow_0 : Control; rrow_1 : Control }.

Definition dot4 (a b : State) : R :=
  x_0 a * x_0 b + x_1 a * x_1 b + x_2 a * x_2 b + x_3 a * x_3 b.
Definition dot2 (a b : Control) : R := u_0 a * u_0 b + u_1 a * u_1 b.

(** [ca.mtimes(Q, x)] and [ca.mtimes(R, u)]. *)
Definition mtimes4 (Q : Mat4) (x : State) : State :=
  mkState (dot4 (row_0 Q) x) (dot4 (row_1 Q) x)
          (dot4 (row_2 Q) x) (dot4 (row_3 Q) x).
Definition mtimes2 (Rm : Mat2) (u : Control) : Control :=
  mkControl (dot2 (rrow_0 Rm) u) (dot2 (rrow_1 Rm) u).

(** [ca.mtimes(x.T, ca.mtimes(Q, x))] and [ca.mtimes(u.T, ca.mtimes(R, u))]. *)
Definition quad4 (Q : Mat4) (x : State) : R := dot4 x (mtimes4 Q x).
Definition quad2 (Rm : Mat2) (u : Control) : R := dot2 u (mtimes2 Rm u).

(** [np.diag([a, b, c, d])] and [np.diag([a, b])]. *)
Definition diag4 (a b c d : R) : Mat4 :=
  mkMat4 (mkState a 0 0 0) (mkState 0 b 0 0)
         (mkState 0 0 c 0) (mkState 0 0 0 d).
Definition diag2 (a b : R) : Mat2 :=
  mkMat2 (mkControl a 0) (mkControl 0 b).

(** Positive semi-definiteness, as nonnegativity of the quadratic form. *)
Definition psd4 (Q : Mat4) : Prop := forall x, 0 <= quad4 Q x.
Definition psd2 (Rm : Mat2) : Prop := forall u, 0 <= quad2 Rm u.

(** [Q] with [d] added to its diagonal entry [(i, i)], and the same for [R]. *)
Definition add_diag4 (i : nat) (d : R) (Q : Mat4) : Mat4 :=
  match i with
  | 0%nat => let r := row_0 Q in
             mkMat4 (mkState (x_0 r + d) (x_1 r) (x_2 r) (x_3 r))
                    (row_1 Q) (row_2 Q) (row_3 Q)
  | 1%nat => let r := row_1 Q in
             mkMat4 (row_0 Q) (mkState (x_0 r) (x_1 r + d) (x_2 r) (x_3 r))
                    (row_2 Q) (row_3 Q)
  | 2%nat => let r := row_2 Q in
             mkMat4 (row_0 Q) (row_1 Q)
                    (mkState (x_0 r) (x_1 r) (x_2 r + d) (x_3 r)) (row_3 Q)
  | 3%nat => let r := row_3 Q in
             mkMat4 (row_0 Q) (row_1 Q) (row_2 Q)
                    (mkState (x_0 r) (x_1 r) (x_2 r) (x_3 r + d))
  | _ => Q
  end.

Definition add_diag2 (j : nat) (d : R) (Rm : Mat2) : Mat2 :=
  match j with
  | 0%nat => let r := rrow_0 Rm in
             mkMat2 (mkControl (u_0 r + d) (u_1 r)) (rrow_1 Rm)
  | 1%nat => let r := rrow_1 Rm in
             mkMat2 (rrow_0 Rm) (mkControl (u_0 r) (u_1 r + d))
  | _ => Rm
  end.

(** ** CasADi's [Opti] stack, shallowly *)

(** The numeric value of the two decision variables an [Opti] of this
    notebook declares: [x] (4 rows, one [State] per column) and [u] (2 rows,
    one [Control] per column).  A solution [sol] of [opti.solve()] is such a
    value. *)
Record Values : Type :=
  mkValues { val_x : list State; val_u : list Control }.

(** A symbolic expression is the function that evaluates it; [sol.value(e)]
    is [e sol]. *)
Definition expr (A : Type) : Type := Values -> A.

Definition zero_state : State := mkState 0 0 0 0.
Definition zero_control : Control := mkControl 0 0.

(** The slices [x[:, k]] and [u[:, k]]. *)
Definition x_col (k : nat) : expr State :=
  fun v => nth k (val_x v) zero_state.
Definition u_col (k : nat) : expr Control :=
  fun v => nth k (val_u v) zero_control.

Inductive constraint : Type :=
| EqState (lhs rhs : expr State)                  (* lhs == rhs *)
| Bounded (lo : R) (e : expr (list Control)) (hi : R). (* opti.bounded(lo, e, hi) *)

Definition in_box (lo hi : R) (u : Control) : Prop :=
  (lo <= u_0 u <= hi) /\ (lo <= u_1 u <= hi).

Definition holds (c : constraint) (v : Values) : Prop :=
  match c with
  | EqState lhs rhs => lhs v = rhs v
  | Bounded lo e hi => Forall (in_box lo hi) (e v)
  end.

Record Opti : Type :=
  mkOpti { variables : list (nat * nat);    (* declared shapes, in order *)
           constraints : list constraint;   (* in order of subject_to *)
           objective : expr R }.

(** [ca.Opti()], [opti.variable(r, c)], [opti.subject_to(c)],
    [opti.minimize(f)]. *)
Definition Opti_new : Opti := mkOpti [] [] (fun _ => 0).
Definition variable (r c : nat) (o : Opti) : Opti :=
  mkOpti (variables o ++ [(r, c)]) (constraints o) (objective o).
Definition subject_to (c : constraint) (o : Opti) : Opti :=
  mkOpti (variables o) (constraints o ++ [c]) (objective o).
Definition minimize (f : expr R) (o : Opti) : Opti :=
  mkOpti (variables o) (constraints o) f.

(** A value has the shape the declarations ask for. *)
Definition well_shaped (o : Opti) (v : Values) : Prop :=
  variables o = [(4%nat, length (val_x v)); (2%nat, length (val_u v))].

Definition feasible (o : Opti) (v : Values) : Prop :=
  well_shaped o v /\ Forall (fun c => holds c v) (constraints o).

(** A global minimiser of the problem. *)
Definition minimiser (o : Opti) (v : Values) : Prop :=
  feasible o v /\ forall w, feasible o w -> objective o v <= objective o w.

(** ** The stage loop shared by [solve_ocp] and [mpc_controller]

    [for k in range(N): cost += x'Qx + u'Ru; x_next = plant_dynamics(..);
     opti.subject_to(x[:, k+1] == x_next)] *)

Definition stage_cost (Q : Mat4) (Rm : Mat2) (k : nat) : expr R :=
  fun v => quad4 Q (x_col k v) + quad2 Rm (u_col k v).

Definition dynamics_constraint (k : nat) : constraint :=
  EqState (x_col (k + 1))
          (fun v => plant_dynamics (x_col k v) (u_col k v)).

Definition stage_body (Q : Mat4) (Rm : Mat2)
    (acc : expr R * Opti) (k : nat) : expr R * Opti :=
  let (cost, opti) := acc in
  let cost := fun v => cost v + stage_cost Q Rm k v in
  (cost, subject_to (dynamics_constraint k) opti).

Definition stage_loop (N : nat) (Q : Mat4) (Rm : Mat2) (opti : Opti)
    : expr R * Opti :=
  fold_left (stage_body Q Rm) (seq 0 N) (fun _ => 0, opti).

(** ** [solve_ocp] *)

(** Lines 38-55 of the notebook: the problem handed to the solver, together
    with the symbolic [cost]. *)
Definition ocp_problem (x_init : State) (N : nat) (Q : Mat4) (Rm : Mat2)
    : expr R * Opti :=
  let opti := Opti_new in
  let opti := variable 4 (N + 1) opti in
  let opti := variable 2 N opti in
  let (cost, opti) := stage_loop N Q Rm opti in
  let opti := minimize cost opti in
  let opti := subject_to (EqState (x_col 0) (fun _ => x_init)) opti in
  let opti := subject_to (Bounded (-1.99) val_u 1.99) opti in
  (cost, opti).

Section Solver.

(** The external solver: [opti.solve()] either returns a solution or
    raises [RuntimeError]. *)
Variable ipopt : Opti -> option Values.

Definition solve_ocp (x_init : State) (N : nat) (Q : Mat4) (Rm : Mat2)
    : pyresult R :=
  let (cost, opti) := ocp_problem x_init N Q Rm in
  match ipopt opti with
  | Some sol => Return (cost sol)
  | None => Raise RuntimeError
  end.

End Solver.

(** ** [generate_ocp_samples] *)

Section Sampling.

Variable ipopt : Opti -> option Values.

(** NumPy's global generator: [np.random.uniform(low, high, size=(4,))]
    yields a state and the next generator state. *)
Variable rng : Type.
Variable uniform : R -> R -> rng -> State * rng.

(** One pass of the loop body: draw [x0], then
    [try: J = solve_ocp(..); X.append(x0); Y.append(J)
     except RuntimeError: continue]. *)
Definition sample_body (N : nat) (Q : Mat4) (Rm : Mat2)
    (acc : list State * list R * rng) : pyresult (list State * list R * rng) :=
  let '(X, Y, gen) := acc in
  let (x0, gen) := uniform (-1.5) 1.5 gen in
  match solve_ocp ipopt x0 N Q Rm with
  | Return J_x0 => Return (X ++ [x0], Y ++ [J_x0], gen)
  | Raise RuntimeError => Return (X, Y, gen)
  | Raise e => Raise e
  end.

Fixpoint sample_loop (n : nat) (N : nat) (Q : Mat4) (Rm : Mat2)
    (acc : list State * list R * rng) : pyresult (list State * list R * rng) :=
  match n with
  | O => Return acc
  | S n' =>
      match sample_body N Q Rm acc with
      | Return acc' => sample_loop n' N Q Rm acc'
      | Raise e => Raise e
      end
  end.

Definition generate_ocp_samples (num_samples N : nat) (Q : Mat4) (Rm : Mat2)
    (gen : rng) : pyresult (list State * list R) :=
  match sample_loop num_samples N Q Rm ([], [], gen) with
  | Return (X, Y, _) => Return (X, Y)
  | Raise e => Raise e
  end.

(** The first [n] draws of the generator, in order. *)
Fixpoint draws (n : nat) (gen : rng) : list State :=
  match n with
  | O => []
  | S n' => let (x0, gen') := uniform (-1.5) 1.5 gen in x0 :: draws n' gen'
  end.

(** The pairs [(x0, J)] of the draws whose solve succeeds, in order. *)
Definition successes (N : nat) (Q : Mat4) (Rm : Mat2) (xs : list State)
    : list (State * R) :=
  flat_map (fun x0 => match solve_ocp ipopt x0 N Q Rm with
                      | Return J => [(x0, J)]
                      | Raise _ => []
                      end) xs.

End Sampling.

(** ** [mpc_controller] *)

(** Lines 98-116 once [terminal_cost] is a number: the problem of one MPC
    iteration and its symbolic [cost]. *)
Definition mpc_problem (x_current : State) (N : nat) (Q : Mat4) (Rm : Mat2)
    (terminal_cost : R) : expr R * Opti :=
  let opti := Opti_new in
  let opti := variable 4 (N + 1) opti in
  let opti := variable 2 N opti in
  let (cost, opti) := stage_loop N Q Rm opti in
  let cost := fun v => cost v + terminal_cost in
  let opti := minimize cost opti in
  let opti := subject_to (EqState (x_col 0) (fun _ => x_current)) opti in
  let opti := subject_to (Bounded (-1.99) val_u 1.99) opti in
  (cost, opti).

(** The locals of [mpc_controller] that live across iterations.  [sol] is a
    local name of the function (line 118 assigns it), unbound until the
    first [opti.solve()] has returned. *)
Record MpcState : Type :=
  mkMpcState { x_current : State;
               total_cost : R;
               x_traj : list State;
               u_traj : list Control;
               sol : option Values }.

(** [sol.value(e)] when [e] is built from the variables of another [Opti]
    than the one [sol] is a solution of: CasADi refuses to evaluate it (the
    symbols belong to a different instance of Opti) and raises
    [RuntimeError]. *)
Definition value_in_other_opti {A : Type} (sol : Values) (e : expr A)
    : pyresult A :=
  Raise RuntimeError.

Section MPC.

Variable ipopt : Opti -> option Values.

(** [terminal_cost_model.predict(np.array([s]))[0, 0]]. *)
Variable predict : State -> R.

Variable N : nat.
Variable Q : Mat4.
Variable Rm : Mat2.

(** Lines 98-118: build the problem and solve it.  Line 108 reads [sol]
    before line 118 assigns it.  When [sol] is bound it is the solution of
    the [Opti] of an earlier iteration, while [x] is the variable line 99
    has just declared in this iteration's new [Opti]; [x[:, -1]] is its
    column [N]. *)
Definition mpc_build_and_solve (st : MpcState) : pyresult (expr R * Values) :=
  match sol st with
  | None => Raise UnboundLocalError
  | Some prev =>
      match value_in_other_opti prev (x_col N) with
      | Raise e => Raise e
      | Return terminal_state =>
          let terminal_cost := predict terminal_state in
          let (cost, opti) :=
            mpc_problem (x_current st) N Q Rm terminal_cost in
          match ipopt opti with
          | Some s => Return (cost, s)
          | None => Raise RuntimeError
          end
      end
  end.

(** One pass of the loop body, lines 98-129.  The slices [u[:, 0]] and
    [x[:, 1]] exist only when [N >= 1]. *)
Definition mpc_iteration (st : MpcState) : pyresult MpcState :=
  match mpc_build_and_solve st with
  | Raise e => Raise e
  | Return (cost, s) =>
      if (N =? 0)%nat then Raise RuntimeError
      else
        let u_opt := u_col 0 s in
        let x_opt := x_col 1 s in
        Return (mkMpcState x_opt
                           (total_cost st + cost s)
                           (x_traj st ++ [x_opt])
                           (u_traj st ++ [u_opt])
                           (Some s))
  end.

(** [for _ in range(horizon_length)]. *)
Fixpoint mpc_loop (n : nat) (st : MpcState) : pyresult MpcState :=
  match n with
  | O => Return st
  | S n' =>
      match mpc_iteration st with
      | Return st' => mpc_loop n' st'
      | Raise e => Raise e
      end
  end.

(** The locals at loop entry (lines 90-94). *)
Definition mpc_init (x_init : State) : MpcState :=
  mkMpcState x_init 0 [x_init] [] None.

(** [dt] is a parameter of the function that its body never reads. *)
Definition mpc_controller (x_init : State) (dt : R) (horizon_length : nat)
    : pyresult (list State * list Control * R) :=
  match mpc_loop horizon_length (mpc_init x_init) with
  | Return st => Return (x_traj st, u_traj st, total_cost st)
  | Raise e => Raise e
  end.

End MPC.

(** ** Notions used in the statements *)

(** The running sum the loop builds: [((0 + t_0) + t_1) + ...]. *)
Definition stage_sum (Q : Mat4) (Rm : Mat2) (N : nat) (v : Values) : R :=
  fold_left (fun a k => a + stage_cost Q Rm k v) (seq 0 N) 0.

(** The feasible set the transcription describes, written out. *)
Definition trajectory_constraints (x0 : State) (N : nat) (v : Values) : Prop :=
  length (val_x v) = (N + 1)%nat /\
  length (val_u v) = N /\
  x_col 0 v = x0 /\
  (forall k, (k < N)%nat ->
     x_col (k + 1) v = plant_dynamics (x_col k v) (u_col k v)) /\
  (forall k, (k < N)%nat ->
     -1.99 <= u_0 (u_col k v) <= 1.99 /\ -1.99 <= u_1 (u_col k v) <= 1.99).

(** Two solutions of one problem that differ in their controls. *)
Definition zero4 : Mat4 := diag4 0 0 0 0.
Definition zero2 : Mat2 := diag2 0 0.
Definition sol_rest : Values :=
  mkValues [zero_state; plant_dynamics zero_state (mkControl 0 0)]
           [mkControl 0 0].
Definition sol_push : Values :=
  mkValues [zero_state; plant_dynamics zero_state (mkControl 1 1)]
           [mkControl 1 1].

(** The solver returns global minimisers on problem [o]. *)
Definition solves_to_optimality (ipopt : Opti -> option Values) (o : Opti)
    : Prop :=
  forall s, ipopt o = Some s -> minimiser o s.

Definition x_tilted : State := mkState 1 0 0 0.
Definition sol_tilted : Values :=
  mkValues [x_tilted; plant_dynamics x_tilted zero_control] [zero_control].

(** The exception line 108 raises, by whether [sol] is bound. *)
Definition line_108_error (st : MpcState) : exn :=
  match sol st with
  | None => UnboundLocalError
  | Some _ => RuntimeError
  end.

(** Loop locals in which [sol] is bound. *)
Definition st_running : MpcState :=
  mkMpcState zero_state 0 [zero_state] [] (Some sol_rest).

(** A scripted generator and a solver that fails on some problems, to run
    the sampling loop on. *)
Definition scripted_uniform (lo hi : R) (gen : list State)
    : State * list State :=
  (hd zero_state gen, tl gen).

Definition init_of (o : Opti) : State :=
  match rev (constraints o) with
  | _ :: EqState _ rhs :: _ => rhs (mkValues [] [])
  | _ => zero_state
  end.

Definition picky_ipopt (o : Opti) : option Values :=
  if Rle_dec 0 (x_0 (init_of o))
  then Some (mkValues [init_of o; init_of o] [zero_control])
  else None.

(** ** Further notions: symmetries and rollouts *)

(** The control [t * u + (1 - t) * u']. *)
Definition mix (t : R) (u u' : Control) : Control :=
  mkControl (t * u_0 u + (1 - t) * u_0 u') (t * u_1 u + (1 - t) * u_1 u').

(** Sign flips of a state, a control and a whole value. *)
Definition neg_state (x : State) : State :=
  mkState (- x_0 x) (- x_1 x) (- x_2 x) (- x_3 x).
Definition neg_control (u : Control) : Control :=
  mkControl (- u_0 u) (- u_1 u).
Definition neg_values (v : Values) : Values :=
  mkValues (map neg_state (val_x v)) (map neg_control (val_u v)).

(** The states the plant visits from [x] under the controls [us]. *)
Fixpoint rollout (x : State) (us : list Control) : list State :=
  match us with
  | [] => [x]
  | u :: us' => x :: rollout (plant_dynamics x u) us'
  end.

(** ** The main block *)

(** The generator after [n] draws of [np.random.uniform(-1.5, 1.5, (4,))]. *)
Fixpoint advance (rng : Type) (uniform : R -> R -> rng -> State * rng)
    (n : nat) (gen : rng) : rng :=
  match n with
  | O => gen
  | S n' => advance rng uniform n' (snd (uniform (-1.5) 1.5 gen))
  end.

Module MainBlock.

Import String.
Local Open Scope string_scope.

(** What a completed run of the main block shows: a figure
    ([plt.figure(); plt.plot(xs, ys, label=..) ...; plt.legend();
    plt.title(..); plt.xlabel(..); plt.ylabel(..); plt.show()]), the total
    cost line, or a plain line of text. *)
Inductive output : Type :=
| Figure (title xlabel ylabel : string)
         (curves : list (string * list R * list R))
| PrintTotalRunningCost (total_cost : R)
| PrintLine (line : string).

Definition no_samples_message : string :=
  "No valid samples generated. Please check OCP parameters or increase num_samples.".

Section Main.

Variable ipopt : Opti -> option Values.
Variable rng : Type.
Variable uniform : R -> R -> rng -> State * rng.

(** [train_neural_network(X, Y)]: Keras is outside the model; training
    yields the [predict] of the fitted network and may use the generator. *)
Variable train_neural_network :
  list State -> list R -> rng -> (State -> R) * rng.

(** Lines 133-176.  The generator is NumPy's global one: after
    [generate_ocp_samples] it has advanced by [num_samples] draws. *)
Definition main (gen : rng) : pyresult (list output) :=
  let dt := 0.01 in
  let N := 10%nat in
  let horizon_length := 20%nat in
  let Q := diag4 10 10 10 10 in
  let Rm := diag2 1 1 in
  let num_samples := 1000%nat in
  match generate_ocp_samples ipopt rng uniform num_samples N Q Rm gen with
  | Raise e => Raise e
  | Return (X, Y) =>
      let gen := advance rng uniform num_samples gen in
      match X with
      | _ :: _ =>
          let (model, gen) := train_neural_network X Y gen in
          let (x_init, gen) := uniform (-1.5) 1.5 gen in
          match mpc_controller ipopt model N Q Rm x_init dt horizon_length with
          | Raise e => Raise e
          | Return (x_traj, u_traj, total_cost) =>
              let time_steps :=
                map (fun i => INR i * dt) (seq 0 (horizon_length + 1)) in
              Return
                [Figure "State Trajectories" "Time (s)" "States"
                   [("$q_1$", time_steps, map x_0 x_traj);
                    ("$q_2$", time_steps, map x_1 x_traj)];
                 Figure "Control Inputs" "Time (s)" "Control Inputs"
                   [("$u_1$", removelast time_steps, map u_0 u_traj);
                    ("$u_2$", removelast time_steps, map u_1 u_traj)];
                 PrintTotalRunningCost total_cost]
          end
      | [] => Return [PrintLine no_samples_message]
      end
  end.

End Main.

End MainBlock.

(** * Properties *)

(** ** The plant *)

Lemma denominator_bounds (x : State) : -4 <= denominator x <= -2.
Proof.
  unfold denominator, m1, m2.
  pose proof (COS_bound (-2 * x_1 x + 2 * x_0 x)) as [Hlo Hhi].
  lra.
Qed.

Lemma denominator_nonzero (x : State) : denominator x <> 0.
Proof. pose proof (denominator_bounds x). lra. Qed.

(** C10: one step is [x + dt * f(x, u)] with [dt = 0.01]; the two position
    components of the result are [q1 + dt*dq1] and [q2 + dt*dq2], and so are
    the same for any two controls [u] and [u']. *)
Theorem plant_dynamics_position_update :
  forall (x : State) (u u' : Control),
    plant_dynamics x u = state_add x (state_scale 0.01 (rhs x u)) /\
    rhs x u = vertcat (x_2 x) (x_3 x) (ddq1 x u) (ddq2 x u) /\
    x_0 (plant_dynamics x u) = x_0 x + 0.01 * x_2 x /\
    x_1 (plant_dynamics x u) = x_1 x + 0.01 * x_3 x /\
    x_0 (plant_dynamics x u) = x_0 (plant_dynamics x u') /\
    x_1 (plant_dynamics x u) = x_1 (plant_dynamics x u').
Proof.
  intros x u u'. repeat split; reflexivity.
Qed.



(** ** The transcription *)

Lemma stage_fold_spec (Q : Mat4) (Rm : Mat2) (ks : list nat) :
  forall (c : expr R) (o : Opti),
    variables (snd (fold_left (stage_body Q Rm) ks (c, o))) = variables o /\
    constraints (snd (fold_left (stage_body Q Rm) ks (c, o)))
      = constraints o ++ map dynamics_constraint ks /\
    objective (snd (fold_left (stage_body Q Rm) ks (c, o))) = objective o /\
    forall v, fst (fold_left (stage_body Q Rm) ks (c, o)) v
              = fold_left (fun a k => a + stage_cost Q Rm k v) ks (c v).
Proof.
  induction ks as [|k ks IH]; intros c o.
  - cbn. rewrite app_nil_r. repeat split; reflexivity.
  - cbn [fold_left map].
    change (stage_body Q Rm (c, o) k)
      with (fun v => c v + stage_cost Q Rm k v,
            subject_to (dynamics_constraint k) o).
    destruct (IH (fun v => c v + stage_cost Q Rm k v)
                 (subject_to (dynamics_constraint k) o)) as (Hv & Hc & Ho & Hf).
    repeat split.
    + exact Hv.
    + etransitivity; [exact Hc|].
      cbn [subject_to constraints]. rewrite <- app_assoc. reflexivity.
    + exact Ho.
    + exact Hf.
Qed.

Lemma ocp_problem_spec (x_init : State) (N : nat) (Q : Mat4) (Rm : Mat2) :
  let p := ocp_problem x_init N Q Rm in
  variables (snd p) = [(4, N + 1); (2, N)]%nat /\
  constraints (snd p) =
    map dynamics_constraint (seq 0 N)
    ++ [EqState (x_col 0) (fun _ => x_init); Bounded (-1.99) val_u 1.99] /\
  (forall v, objective (snd p) v = stage_sum Q Rm N v) /\
  (forall v, fst p v = stage_sum Q Rm N v).
Proof.
  unfold ocp_problem, stage_loop.
  pose proof (stage_fold_spec Q Rm (seq 0 N) (fun _ => 0)
                (variable 2 N (variable 4 (N + 1) Opti_new))) as H.
  destruct (fold_left (stage_body Q Rm) (seq 0 N) _) as [cost opti].
  cbn [fst snd] in *. destruct H as (Hv & Hc & _ & Hf).
  cbn [subject_to minimize variables constraints objective].
  repeat split.
  - rewrite Hv. reflexivity.
  - rewrite Hc. cbn. rewrite <- app_assoc. reflexivity.
  - exact Hf.
  - exact Hf.
Qed.

Lemma mpc_problem_spec (x_cur : State) (N : nat) (Q : Mat4) (Rm : Mat2) (t : R) :
  let p := mpc_problem x_cur N Q Rm t in
  variables (snd p) = [(4, N + 1); (2, N)]%nat /\
  constraints (snd p) =
    map dynamics_constraint (seq 0 N)
    ++ [EqState (x_col 0) (fun _ => x_cur); Bounded (-1.99) val_u 1.99] /\
  (forall v, objective (snd p) v = stage_sum Q Rm N v + t) /\
  (forall v, fst p v = stage_sum Q Rm N v + t).
Proof.
  unfold mpc_problem, stage_loop.
  pose proof (stage_fold_spec Q Rm (seq 0 N) (fun _ => 0)
                (variable 2 N (variable 4 (N + 1) Opti_new))) as H.
  destruct (fold_left (stage_body Q Rm) (seq 0 N) _) as [cost opti].
  cbn [fst snd] in *. destruct H as (Hv & Hc & _ & Hf).
  cbn [subject_to minimize variables constraints objective].
  repeat split.
  - rewrite Hv. reflexivity.
  - rewrite Hc. cbn. rewrite <- app_assoc. reflexivity.
  - intros v. rewrite Hf. reflexivity.
  - intros v. rewrite Hf. reflexivity.
Qed.

Lemma feasible_iff (o : Opti) (x0 : State) (N : nat) :
  variables o = [(4, N + 1); (2, N)]%nat ->
  constraints o =
    map dynamics_constraint (seq 0 N)
    ++ [EqState (x_col 0) (fun _ => x0); Bounded (-1.99) val_u 1.99] ->
  forall v, feasible o v <-> trajectory_constraints x0 N v.
Proof.
  intros Hv Hc v. unfold feasible, well_shaped, trajectory_constraints.
  rewrite Hv, Hc, Forall_app, Forall_map. split.
  - intros (Hshape & Hdyn & Hrest).
    inversion Hshape as [[Hx Hu]].
    inversion_clear Hrest as [|? ? Hinit Hrest'].
    inversion_clear Hrest' as [|? ? Hbox _].
    cbn [holds] in Hinit, Hbox.
    repeat split; auto.
    + intros k Hk. rewrite Forall_forall in Hdyn.
      apply (Hdyn k). apply in_seq. lia.
    + rewrite Forall_nth in Hbox.
      apply (Hbox k zero_control). lia.
    + rewrite Forall_nth in Hbox.
      apply (Hbox k zero_control). lia.
    + rewrite Forall_nth in Hbox.
      apply (Hbox k zero_control). lia.
    + rewrite Forall_nth in Hbox.
      apply (Hbox k zero_control). lia.
  - intros (Hx & Hu & Hinit & Hdyn & Hbox).
    split; [rewrite Hx, Hu; reflexivity|]. split.
    + apply Forall_forall. intros k Hk. apply in_seq in Hk.
      cbn [holds dynamics_constraint]. apply Hdyn. lia.
    + repeat constructor; cbn [holds]; [exact Hinit|].
      apply Forall_nth. intros i d Hi.
      rewrite (nth_indep _ d zero_control Hi).
      apply (Hbox i). lia.
Qed.

(** C4: the transcription of [solve_ocp] declares a 4 x (N+1) state variable
    and a 2 x N control variable, and a value of the decision variables
    satisfies its constraints exactly when it has N+1 states and N controls,
    its state 0 is [x_init], each state k+1 is [plant_dynamics] of state k
    and control k (as an equation), and every control component lies in
    [-1.99, 1.99]. *)
Theorem ocp_transcription :
  forall (x_init : State) (N : nat) (Q : Mat4) (Rm : Mat2),
    let opti := snd (ocp_problem x_init N Q Rm) in
    variables opti = [(4, N + 1); (2, N)]%nat /\
    constraints opti =
      map (fun k => EqState (x_col (k + 1))
                      (fun v => plant_dynamics (x_col k v) (u_col k v)))
          (seq 0 N)
      ++ [EqState (x_col 0) (fun _ => x_init); Bounded (-1.99) val_u 1.99] /\
    forall v : Values,
      feasible opti v <->
      length (val_x v) = (N + 1)%nat /\
      length (val_u v) = N /\
      x_col 0 v = x_init /\
      (forall k, (k < N)%nat ->
         x_col (k + 1) v = plant_dynamics (x_col k v) (u_col k v)) /\
      (forall k, (k < N)%nat ->
         -1.99 <= u_0 (u_col k v) <= 1.99 /\ -1.99 <= u_1 (u_col k v) <= 1.99).
Proof.
  intros x_init N Q Rm opti.
  destruct (ocp_problem_spec x_init N Q Rm) as (Hv & Hc & _ & _).
  split; [exact Hv|]. split; [exact Hc|].
  intros v. exact (feasible_iff opti x_init N Hv Hc v).
Qed.

(** ** What [solve_ocp] returns *)

Lemma solve_ocp_unfold (ipopt : Opti -> option Values)
    (x_init : State) (N : nat) (Q : Mat4) (Rm : Mat2) :
  solve_ocp ipopt x_init N Q Rm =
    match ipopt (snd (ocp_problem x_init N Q Rm)) with
    | Some s => Return (stage_sum Q Rm N s)
    | None => Raise RuntimeError
    end.
Proof.
  unfold solve_ocp.
  pose proof (ocp_problem_spec x_init N Q Rm) as (_ & _ & _ & Hf).
  destruct (ocp_problem x_init N Q Rm) as [cost opti]. cbn [fst snd] in *.
  destruct (ipopt opti); [rewrite Hf|]; reflexivity.
Qed.

Lemma one_step_feasible (x0 : State) (u : Control) (Q : Mat4) (Rm : Mat2) :
  -1.99 <= u_0 u <= 1.99 -> -1.99 <= u_1 u <= 1.99 ->
  feasible (snd (ocp_problem x0 1 Q Rm))
           (mkValues [x0; plant_dynamics x0 u] [u]).
Proof.
  intros H0 H1.
  destruct (ocp_problem_spec x0 1 Q Rm) as (Hv & Hc & _ & _).
  apply (feasible_iff _ x0 1%nat Hv Hc).
  unfold trajectory_constraints. cbn [val_x val_u length].
  repeat split; try reflexivity;
    try (destruct k as [|k]; [cbn; tauto || reflexivity | lia]).
Qed.

Lemma zero_weights_objective (x0 : State) (N : nat) (v : Values) :
  objective (snd (ocp_problem x0 N zero4 zero2)) v = 0.
Proof.
  destruct (ocp_problem_spec x0 N zero4 zero2) as (_ & _ & Ho & _).
  rewrite Ho. unfold stage_sum.
  assert (H : forall ks a, a = 0 ->
            fold_left (fun a k => a + stage_cost zero4 zero2 k v) ks a = 0).
  { induction ks as [|k ks IH]; intros a Ha; cbn [fold_left]; [exact Ha|].
    apply IH. subst a.
    unfold stage_cost, quad4, quad2, mtimes4, mtimes2, dot4, dot2, zero4,
      zero2, diag4, diag2.
    cbn [x_0 x_1 x_2 x_3 u_0 u_1 row_0 row_1 row_2 row_3 rrow_0 rrow_1].
    ring. }
  apply H. reflexivity.
Qed.

(** C3, as stated, fails: with zero weights and N = 1 the problem from the
    rest state has two minimisers with different controls and different
    state trajectories, and [solve_ocp] returns the same value, the number
    0, whichever of them the solver hands back. *)
Lemma solve_ocp_forgets_trajectory :
  minimiser (snd (ocp_problem zero_state 1 zero4 zero2)) sol_rest /\
  minimiser (snd (ocp_problem zero_state 1 zero4 zero2)) sol_push /\
  val_u sol_rest <> val_u sol_push /\
  val_x sol_rest <> val_x sol_push /\
  solve_ocp (fun _ => Some sol_rest) zero_state 1 zero4 zero2 = Return 0 /\
  solve_ocp (fun _ => Some sol_push) zero_state 1 zero4 zero2 = Return 0.
Proof.
  assert (Hmin : forall s,
            feasible (snd (ocp_problem zero_state 1 zero4 zero2)) s ->
            minimiser (snd (ocp_problem zero_state 1 zero4 zero2)) s).
  { intros s Hs. split; [exact Hs|]. intros w _.
    rewrite !zero_weights_objective. lra. }
  split; [|split; [|split; [|split; [|split]]]].
  - apply Hmin. apply one_step_feasible; cbn; lra.
  - apply Hmin. apply one_step_feasible; cbn; lra.
  - unfold sol_rest, sol_push; cbn [val_u]. intros H.
    injection H as H _. lra.
  - unfold sol_rest, sol_push; cbn [val_x]. intros H.
    apply (f_equal (fun l => x_3 (nth 1 l zero_state))) in H.
    cbn [nth] in H. revert H.
    unfold plant_dynamics, rhs, ddq2, state_add, state_scale, vertcat,
      zero_state, dt, l1, l2, m1, m2, g.
    cbn [x_0 x_1 x_2 x_3 u_0 u_1].
    replace (-2 * 0 + 2 * 0) with 0 by ring.
    replace (- 0 + 2 * 0) with 0 by ring.
    replace (- 0 + 0) with 0 by ring.
    rewrite sin_0, cos_0. intros H. lra.
  - rewrite solve_ocp_unfold.
    pose proof (zero_weights_objective zero_state 1 sol_rest) as H0.
    destruct (ocp_problem_spec zero_state 1 zero4 zero2) as (_ & _ & Ho & _).
    rewrite Ho in H0. rewrite H0. reflexivity.
  - rewrite solve_ocp_unfold.
    pose proof (zero_weights_objective zero_state 1 sol_push) as H0.
    destruct (ocp_problem_spec zero_state 1 zero4 zero2) as (_ & _ & Ho & _).
    rewrite Ho in H0. rewrite H0. reflexivity.
Qed.

(** C3, amended: when the solver succeeds with [sol], [solve_ocp] returns
    the single number [sol.value(cost)], the objective of the problem at
    [sol]; when the solver fails, the call raises [RuntimeError]. *)
Theorem solve_ocp_returns_cost :
  forall (ipopt : Opti -> option Values)
         (x_init : State) (N : nat) (Q : Mat4) (Rm : Mat2),
    let opti := snd (ocp_problem x_init N Q Rm) in
    (forall s, ipopt opti = Some s ->
       solve_ocp ipopt x_init N Q Rm = Return (objective opti s) /\
       objective opti s = stage_sum Q Rm N s) /\
    (ipopt opti = None ->
       solve_ocp ipopt x_init N Q Rm = Raise RuntimeError).
Proof.
  intros ipopt x_init N Q Rm opti. subst opti.
  destruct (ocp_problem_spec x_init N Q Rm) as (_ & _ & Ho & _).
  rewrite solve_ocp_unfold. split.
  - intros s Hs. rewrite Hs, Ho. split; reflexivity.
  - intros Hs. rewrite Hs. reflexivity.
Qed.

Lemma solve_ocp_returns_cost_witness :
  solve_ocp (fun _ => Some sol_push) zero_state 1
            (diag4 10 10 10 10) (diag2 1 1)
  = Return (objective
              (snd (ocp_problem zero_state 1 (diag4 10 10 10 10) (diag2 1 1)))
              sol_push).
Proof.
  apply (solve_ocp_returns_cost (fun _ => Some sol_push) zero_state 1
           (diag4 10 10 10 10) (diag2 1 1)).
  reflexivity.
Defined.

(** ** Sign and monotonicity of the cost *)

Lemma fold_stage_ge (Q : Mat4) (Rm : Mat2) (v : Values) (ks : list nat) :
  (forall k, 0 <= stage_cost Q Rm k v) ->
  forall a, a <= fold_left (fun a k => a + stage_cost Q Rm k v) ks a.
Proof.
  intros Hpos. induction ks as [|k ks IH]; intros a; cbn [fold_left].
  - lra.
  - specialize (IH (a + stage_cost Q Rm k v)). specialize (Hpos k). lra.
Qed.

Lemma fold_stage_le (Q Q' : Mat4) (Rm Rm' : Mat2) (v : Values) (ks : list nat) :
  (forall k, stage_cost Q Rm k v <= stage_cost Q' Rm' k v) ->
  forall a a', a <= a' ->
    fold_left (fun a k => a + stage_cost Q Rm k v) ks a
    <= fold_left (fun a k => a + stage_cost Q' Rm' k v) ks a'.
Proof.
  intros Hle. induction ks as [|k ks IH]; intros a a' Ha; cbn [fold_left].
  - exact Ha.
  - apply IH. specialize (Hle k). lra.
Qed.

Lemma psd_diag4_10 : psd4 (diag4 10 10 10 10).
Proof.
  intros [a b c d]. unfold quad4, mtimes4, dot4, diag4.
  cbn [x_0 x_1 x_2 x_3 row_0 row_1 row_2 row_3]. nra.
Qed.

Lemma psd_diag2_1 : psd2 (diag2 1 1).
Proof.
  intros [a b]. unfold quad2, mtimes2, dot2, diag2.
  cbn [u_0 u_1 rrow_0 rrow_1]. nra.
Qed.

(** C8: with [Q] and [R] positive semi-definite every stage term is
    nonnegative; the objective of the [solve_ocp] problem is the sum of the
    stage terms and is nonnegative at every point, so the cost [solve_ocp]
    returns is nonnegative; the objective of an MPC iteration is that sum
    plus the terminal term and is at least the terminal term. *)
Theorem cost_nonnegative :
  forall (Q : Mat4) (Rm : Mat2),
    psd4 Q -> psd2 Rm ->
    (forall k v, 0 <= stage_cost Q Rm k v) /\
    (forall x_init N v,
       objective (snd (ocp_problem x_init N Q Rm)) v
         = fold_left (fun a k => a + stage_cost Q Rm k v) (seq 0 N) 0 /\
       0 <= objective (snd (ocp_problem x_init N Q Rm)) v) /\
    (forall ipopt x_init N c,
       solve_ocp ipopt x_init N Q Rm = Return c -> 0 <= c) /\
    (forall x_current N terminal_cost v,
       objective (snd (mpc_problem x_current N Q Rm terminal_cost)) v
         = fold_left (fun a k => a + stage_cost Q Rm k v) (seq 0 N) 0
           + terminal_cost /\
       terminal_cost
         <= objective (snd (mpc_problem x_current N Q Rm terminal_cost)) v).
Proof.
  intros Q Rm HQ HR.
  assert (Hstage : forall k v, 0 <= stage_cost Q Rm k v).
  { intros k v. unfold stage_cost.
    specialize (HQ (x_col k v)). specialize (HR (u_col k v)). lra. }
  assert (Hsum : forall N v, 0 <= stage_sum Q Rm N v).
  { intros N v. unfold stage_sum. apply fold_stage_ge. intros k. apply Hstage. }
  split; [exact Hstage|]. split; [|split].
  - intros x_init N v.
    destruct (ocp_problem_spec x_init N Q Rm) as (_ & _ & Ho & _).
    rewrite Ho. split; [reflexivity | apply Hsum].
  - intros ipopt x_init N c. rewrite solve_ocp_unfold.
    destruct (ipopt _) as [s|]; [|discriminate].
    intros H. injection H as <-. apply Hsum.
  - intros x_cur N t v.
    destruct (mpc_problem_spec x_cur N Q Rm t) as (_ & _ & Ho & _).
    rewrite Ho. split; [reflexivity|]. specialize (Hsum N v). lra.
Qed.

Lemma cost_nonnegative_witness :
  psd4 (diag4 10 10 10 10) /\ psd2 (diag2 1 1) /\
  (forall c,
     solve_ocp (fun _ => Some sol_push) zero_state 1
               (diag4 10 10 10 10) (diag2 1 1) = Return c -> 0 <= c) /\
  0 <= objective (snd (ocp_problem zero_state 1 (diag4 10 10 10 10) (diag2 1 1)))
         sol_push.
Proof.
  destruct (cost_nonnegative (diag4 10 10 10 10) (diag2 1 1)
              psd_diag4_10 psd_diag2_1) as (_ & Hobj & Hsolve & _).
  split; [exact psd_diag4_10|]. split; [exact psd_diag2_1|]. split.
  - intros c. apply Hsolve.
  - apply Hobj.
Defined.

(** Adding [d >= 0] to one diagonal entry only adds [d * x_i ^ 2]. *)
Lemma quad4_add_diag (i : nat) (d : R) (Q : Mat4) (x : State) :
  0 <= d -> quad4 Q x <= quad4 (add_diag4 i d Q) x.
Proof.
  intros Hd. destruct x as [a b c e].
  destruct i as [|[|[|[|i]]]];
    unfold quad4, mtimes4, dot4, add_diag4;
    cbn [x_0 x_1 x_2 x_3 row_0 row_1 row_2 row_3]; nra.
Qed.

Lemma quad2_add_diag (j : nat) (d : R) (Rm : Mat2) (u : Control) :
  0 <= d -> quad2 Rm u <= quad2 (add_diag2 j d Rm) u.
Proof.
  intros Hd. destruct u as [a b].
  destruct j as [|[|j]];
    unfold quad2, mtimes2, dot2, add_diag2;
    cbn [u_0 u_1 rrow_0 rrow_1]; nra.
Qed.

(** The optimal value cannot go down when every stage term goes up. *)
Lemma larger_stage_terms_larger_optimum
    (ipopt : Opti -> option Values) (x_init : State) (N : nat)
    (Q Q' : Mat4) (Rm Rm' : Mat2) (c c' : R) :
  (forall x, quad4 Q x <= quad4 Q' x) ->
  (forall u, quad2 Rm u <= quad2 Rm' u) ->
  solves_to_optimality ipopt (snd (ocp_problem x_init N Q Rm)) ->
  solves_to_optimality ipopt (snd (ocp_problem x_init N Q' Rm')) ->
  solve_ocp ipopt x_init N Q Rm = Return c ->
  solve_ocp ipopt x_init N Q' Rm' = Return c' ->
  c <= c'.
Proof.
  intros HQ HR Hopt Hopt'. rewrite !solve_ocp_unfold.
  destruct (ocp_problem_spec x_init N Q Rm) as (Hv & Hc & Ho & _).
  destruct (ocp_problem_spec x_init N Q' Rm') as (Hv' & Hc' & Ho' & _).
  destruct (ipopt (snd (ocp_problem x_init N Q Rm))) as [s|] eqn:Hs;
    [|discriminate].
  destruct (ipopt (snd (ocp_problem x_init N Q' Rm'))) as [s'|] eqn:Hs';
    [|discriminate].
  intros H H'. injection H as <-. injection H' as <-.
  destruct (Hopt s Hs) as [_ Hmin]. destruct (Hopt' s' Hs') as [Hfeas' _].
  assert (Hfeas : feasible (snd (ocp_problem x_init N Q Rm)) s').
  { apply (feasible_iff _ x_init N Hv Hc).
    apply (feasible_iff _ x_init N Hv' Hc'). exact Hfeas'. }
  specialize (Hmin s' Hfeas). rewrite !Ho in Hmin.
  apply Rle_trans with (1 := Hmin).
  unfold stage_sum. apply fold_stage_le; [|lra].
  intros k. unfold stage_cost.
  specialize (HQ (x_col k s')). specialize (HR (u_col k s')). lra.
Qed.

(** C9: for fixed [x0] and [N], adding [d >= 0] to one diagonal entry of [Q],
    or to one diagonal entry of [R], does not lower the cost [solve_ocp]
    returns, when the solver returns global minimisers of both problems. *)
Theorem optimal_cost_monotone :
  forall (ipopt : Opti -> option Values) (x0 : State) (N : nat)
         (Q : Mat4) (Rm : Mat2) (d : R),
    0 <= d ->
    solves_to_optimality ipopt (snd (ocp_problem x0 N Q Rm)) ->
    (forall i c c',
       solves_to_optimality ipopt (snd (ocp_problem x0 N (add_diag4 i d Q) Rm)) ->
       solve_ocp ipopt x0 N Q Rm = Return c ->
       solve_ocp ipopt x0 N (add_diag4 i d Q) Rm = Return c' ->
       c <= c') /\
    (forall j c c',
       solves_to_optimality ipopt (snd (ocp_problem x0 N Q (add_diag2 j d Rm))) ->
       solve_ocp ipopt x0 N Q Rm = Return c ->
       solve_ocp ipopt x0 N Q (add_diag2 j d Rm) = Return c' ->
       c <= c').
Proof.
  intros ipopt x0 N Q Rm d Hd Hopt. split.
  - intros i c c' Hopt' Hc Hc'.
    apply (larger_stage_terms_larger_optimum ipopt x0 N Q (add_diag4 i d Q)
             Rm Rm c c'); auto.
    + intros x. apply quad4_add_diag. exact Hd.
    + intros u. lra.
  - intros j c c' Hopt' Hc Hc'.
    apply (larger_stage_terms_larger_optimum ipopt x0 N Q Q
             Rm (add_diag2 j d Rm) c c'); auto.
    + intros x. lra.
    + intros u. apply quad2_add_diag. exact Hd.
Qed.

(** With one stage the rest control is a global minimiser: the state of the
    only stage term is pinned to [x0], and [u'Ru >= 0 = 0'R0]. *)
Lemma one_step_rest_minimiser (x0 : State) (Q : Mat4) (Rm : Mat2) :
  psd2 Rm ->
  minimiser (snd (ocp_problem x0 1 Q Rm))
            (mkValues [x0; plant_dynamics x0 zero_control] [zero_control]).
Proof.
  intros HR. split.
  - apply one_step_feasible; cbn; lra.
  - intros w Hw.
    destruct (ocp_problem_spec x0 1 Q Rm) as (Hv & Hc & Ho & _).
    apply (feasible_iff _ x0 1%nat Hv Hc) in Hw.
    destruct Hw as (_ & _ & Hinit & _).
    rewrite !Ho. unfold stage_sum, stage_cost. cbn [seq fold_left].
    rewrite Hinit. unfold x_col, u_col at 1. cbn [val_x val_u nth].
    specialize (HR (u_col 0 w)).
    assert (H0 : quad2 Rm zero_control = 0).
    { unfold quad2, mtimes2, dot2, zero_control. cbn [u_0 u_1]. ring. }
    rewrite H0. lra.
Qed.

Lemma psd2_add_diag (j : nat) (d : R) (Rm : Mat2) :
  0 <= d -> psd2 Rm -> psd2 (add_diag2 j d Rm).
Proof.
  intros Hd HR u. apply Rle_trans with (1 := HR u).
  apply quad2_add_diag. exact Hd.
Qed.

Lemma optimal_cost_monotone_witness :
  0 <= 5 /\
  (exists c c',
     solve_ocp (fun _ => Some sol_tilted) x_tilted 1
               (diag4 10 10 10 10) (diag2 1 1) = Return c /\
     solve_ocp (fun _ => Some sol_tilted) x_tilted 1
               (add_diag4 0 5 (diag4 10 10 10 10)) (diag2 1 1) = Return c' /\
     c <= c') /\
  (exists c c',
     solve_ocp (fun _ => Some sol_tilted) x_tilted 1
               (diag4 10 10 10 10) (diag2 1 1) = Return c /\
     solve_ocp (fun _ => Some sol_tilted) x_tilted 1
               (diag4 10 10 10 10) (add_diag2 1 5 (diag2 1 1)) = Return c' /\
     c <= c').
Proof.
  assert (Hd : 0 <= 5) by lra.
  assert (Hopt : forall Q Rm, psd2 Rm ->
            solves_to_optimality (fun _ => Some sol_tilted)
              (snd (ocp_problem x_tilted 1 Q Rm))).
  { intros Q Rm HR s Hs. injection Hs as <-.
    apply one_step_rest_minimiser. exact HR. }
  destruct (optimal_cost_monotone (fun _ => Some sol_tilted) x_tilted 1
              (diag4 10 10 10 10) (diag2 1 1) 5 Hd
              (Hopt _ _ psd_diag2_1)) as [HQ HR].
  split; [exact Hd|]. split.
  - eexists. eexists.
    split; [rewrite solve_ocp_unfold; reflexivity|].
    split; [rewrite solve_ocp_unfold; reflexivity|].
    apply (HQ 0%nat).
    + apply Hopt. exact psd_diag2_1.
    + rewrite solve_ocp_unfold; reflexivity.
    + rewrite solve_ocp_unfold; reflexivity.
  - eexists. eexists.
    split; [rewrite solve_ocp_unfold; reflexivity|].
    split; [rewrite solve_ocp_unfold; reflexivity|].
    apply (HR 1%nat).
    + apply Hopt. apply psd2_add_diag; [exact Hd | exact psd_diag2_1].
    + rewrite solve_ocp_unfold; reflexivity.
    + rewrite solve_ocp_unfold; reflexivity.
Defined.

(** ** Sample generation *)

Section SamplingFacts.

Variable ipopt : Opti -> option Values.
Variable rng : Type.
Variable uniform : R -> R -> rng -> State * rng.

Lemma solve_ocp_raises_runtime_only x0 N Q Rm e :
  solve_ocp ipopt x0 N Q Rm = Raise e -> e = RuntimeError.
Proof.
  rewrite solve_ocp_unfold. destruct (ipopt _); [discriminate|].
  intros H. injection H as <-. reflexivity.
Qed.

Lemma sample_loop_spec (N : nat) (Q : Mat4) (Rm : Mat2) (n : nat) :
  forall X Y gen,
  exists gen',
    sample_loop ipopt rng uniform n N Q Rm (X, Y, gen) =
      Return (X ++ map fst (successes ipopt N Q Rm (draws rng uniform n gen)),
              Y ++ map snd (successes ipopt N Q Rm (draws rng uniform n gen)),
              gen').
Proof.
  induction n as [|n IH]; intros X Y gen.
  - exists gen. cbn. rewrite !app_nil_r. reflexivity.
  - cbn [sample_loop draws]. unfold sample_body.
    destruct (uniform (-1.5) 1.5 gen) as [x0 gen1].
    unfold successes. cbn [flat_map].
    fold (successes ipopt N Q Rm (draws rng uniform n gen1)).
    destruct (solve_ocp ipopt x0 N Q Rm) as [J|e] eqn:Hsolve.
    + destruct (IH (X ++ [x0]) (Y ++ [J]) gen1) as [gen' Hloop].
      exists gen'. rewrite Hloop. cbn [app map fst snd].
      rewrite <- !app_assoc. reflexivity.
    + apply solve_ocp_raises_runtime_only in Hsolve. subst e.
      destruct (IH X Y gen1) as [gen' Hloop].
      exists gen'. rewrite Hloop. reflexivity.
Qed.

End SamplingFacts.

(** C7: every draw is solved once; a draw whose solve succeeds appends
    [(x0, cost)], a draw whose solve raises [RuntimeError] appends nothing
    and the loop goes on; the call returns exactly the successful pairs, in
    draw order, and nothing else (no count of failures). *)
Theorem generate_ocp_samples_successes :
  forall (ipopt : Opti -> option Values)
         (rng : Type) (uniform : R -> R -> rng -> State * rng)
         (num_samples N : nat) (Q : Mat4) (Rm : Mat2) (gen : rng),
    let xs := draws rng uniform num_samples gen in
    let pairs :=
      flat_map (fun x0 => match solve_ocp ipopt x0 N Q Rm with
                          | Return J => [(x0, J)]
                          | Raise _ => []
                          end) xs in
    length xs = num_samples /\
    generate_ocp_samples ipopt rng uniform num_samples N Q Rm gen
      = Return (map fst pairs, map snd pairs).
Proof.
  intros ipopt rng uniform num_samples N Q Rm gen xs pairs. split.
  - subst xs. clear pairs. revert gen.
    induction num_samples as [|n IH]; intros gen; cbn [draws].
    + reflexivity.
    + destruct (uniform (-1.5) 1.5 gen) as [x0 gen1]. cbn [length].
      rewrite IH. reflexivity.
  - unfold generate_ocp_samples.
    destruct (sample_loop_spec ipopt rng uniform N Q Rm num_samples [] [] gen)
      as [gen' Hloop].
    rewrite Hloop. reflexivity.
Qed.

Lemma init_of_ocp_problem (x0 : State) (N : nat) (Q : Mat4) (Rm : Mat2) :
  init_of (snd (ocp_problem x0 N Q Rm)) = x0.
Proof.
  destruct (ocp_problem_spec x0 N Q Rm) as (_ & Hc & _ & _).
  unfold init_of. rewrite Hc, rev_app_distr. reflexivity.
Qed.

Lemma picky_solve_ocp (x0 : State) (Q : Mat4) (Rm : Mat2) :
  solve_ocp picky_ipopt x0 1 Q Rm =
    if Rle_dec 0 (x_0 x0) then Return (0 + (quad4 Q x0 + quad2 Rm zero_control))
    else Raise RuntimeError.
Proof.
  rewrite solve_ocp_unfold. unfold picky_ipopt.
  rewrite init_of_ocp_problem.
  destruct (Rle_dec 0 (x_0 x0)); reflexivity.
Qed.

Lemma generate_ocp_samples_successes_witness :
  generate_ocp_samples picky_ipopt (list State) scripted_uniform 3 1
    (diag4 10 10 10 10) (diag2 1 1)
    [mkState 1 0 0 0; mkState (-1) 0 0 0; mkState 0.5 0 0 0]
  = Return ([mkState 1 0 0 0; mkState 0.5 0 0 0],
            [0 + (quad4 (diag4 10 10 10 10) (mkState 1 0 0 0)
                  + quad2 (diag2 1 1) zero_control);
             0 + (quad4 (diag4 10 10 10 10) (mkState 0.5 0 0 0)
                  + quad2 (diag2 1 1) zero_control)]).
Proof.
  destruct (generate_ocp_samples_successes picky_ipopt (list State)
              scripted_uniform 3 1 (diag4 10 10 10 10) (diag2 1 1)
              [mkState 1 0 0 0; mkState (-1) 0 0 0; mkState 0.5 0 0 0])
    as [_ Hgen].
  rewrite Hgen. cbn [draws scripted_uniform hd tl flat_map].
  rewrite !picky_solve_ocp. cbn [x_0].
  destruct (Rle_dec 0 1) as [_|Hn]; [|exfalso; lra].
  destruct (Rle_dec 0 (-1)) as [Hn|_]; [exfalso; lra|].
  destruct (Rle_dec 0 0.5) as [_|Hn]; [|exfalso; lra].
  reflexivity.
Defined.

(** ** The MPC loop *)

Section MPCFacts.

Variable ipopt : Opti -> option Values.
Variable predict : State -> R.
Variable N : nat.
Variable Q : Mat4.
Variable Rm : Mat2.

Lemma mpc_build_and_solve_outcome (st : MpcState) :
  mpc_build_and_solve ipopt predict N Q Rm st = Raise (line_108_error st).
Proof.
  unfold mpc_build_and_solve, line_108_error.
  destruct (sol st) as [prev|]; reflexivity.
Qed.

Lemma mpc_iteration_outcome (st : MpcState) :
  mpc_iteration ipopt predict N Q Rm st = Raise (line_108_error st).
Proof.
  unfold mpc_iteration. rewrite mpc_build_and_solve_outcome. reflexivity.
Qed.

Lemma mpc_loop_outcome (H : nat) (st : MpcState) :
  mpc_loop ipopt predict N Q Rm (S H) st = Raise (line_108_error st).
Proof.
  cbn [mpc_loop]. rewrite mpc_iteration_outcome. reflexivity.
Qed.

Lemma mpc_first_iteration (x_init : State) :
  mpc_iteration ipopt predict N Q Rm (mpc_init x_init)
    = Raise UnboundLocalError.
Proof. reflexivity. Qed.

End MPCFacts.

(** C1: the code reads [sol] on line 108 before line 118 has assigned it, so
    the first iteration of every run with at least one iteration raises
    [UnboundLocalError]: no seed terminal state is used, no problem is
    built to the end and the solver is never called. *)
Theorem mpc_controller_unbound_sol :
  forall (ipopt : Opti -> option Values) (predict : State -> R)
         (N : nat) (Q : Mat4) (Rm : Mat2)
         (x_init : State) (dt : R) (horizon_length : nat),
    mpc_build_and_solve ipopt predict N Q Rm (mpc_init x_init)
      = Raise UnboundLocalError /\
    mpc_controller ipopt predict N Q Rm x_init dt (S horizon_length)
      = Raise UnboundLocalError.
Proof.
  intros. split; reflexivity.
Qed.

(** C6: no iteration gets to lines 120-129.  Whatever the loop locals, the
    solver and the model, an iteration ends on line 108, with
    [UnboundLocalError] when [sol] is unbound and with [RuntimeError] when
    it is bound; so no control is appended and the current state is never
    replaced by the second state of a solved trajectory. *)
Theorem mpc_iteration_never_completes :
  forall (ipopt : Opti -> option Values) (predict : State -> R)
         (N : nat) (Q : Mat4) (Rm : Mat2) (st : MpcState),
    mpc_iteration ipopt predict N Q Rm st
      = Raise (match sol st with
               | None => UnboundLocalError
               | Some _ => RuntimeError
               end) /\
    (forall st', mpc_iteration ipopt predict N Q Rm st <> Return st').
Proof.
  intros ipopt predict N Q Rm st.
  pose proof (mpc_iteration_outcome ipopt predict N Q Rm st) as H.
  split; [exact H|]. intros st' Hr. rewrite H in Hr. discriminate.
Qed.

(** C5: no run of at least one iteration completes.  The loop entered in
    any state raises in its first pass, before any solve, and
    [mpc_controller] with [horizon_length >= 1] returns no trajectories and
    no total cost, although no solver failure has occurred. *)
Theorem mpc_run_never_completes :
  forall (ipopt : Opti -> option Values) (predict : State -> R)
         (N : nat) (Q : Mat4) (Rm : Mat2) (horizon_length : nat),
    (forall st,
       mpc_loop ipopt predict N Q Rm (S horizon_length) st
         = Raise (match sol st with
                  | None => UnboundLocalError
                  | Some _ => RuntimeError
                  end)) /\
    (forall x_init dt xs us c,
       mpc_controller ipopt predict N Q Rm x_init dt (S horizon_length)
         <> Return (xs, us, c)).
Proof.
  intros ipopt predict N Q Rm H. split.
  - intros st. apply mpc_loop_outcome.
  - intros x_init dt xs us c. unfold mpc_controller.
    rewrite mpc_loop_outcome. discriminate.
Qed.

(** * Further properties of the code *)

(** ** The plant: how the control enters *)

Lemma denominator_unfolded_nonzero (x : State) :
  cos (-2 * x_1 x + 2 * x_0 x) - 2 - 1 <> 0.
Proof. pose proof (COS_bound (-2 * x_1 x + 2 * x_0 x)). lra. Qed.

Lemma ddq1_control_difference (x : State) (u u' : Control) :
  ddq1 x u - ddq1 x u' =
    (2 * (u_1 u - u_1 u') * cos (- x_1 x + x_0 x) - 2 * (u_0 u - u_0 u'))
    / denominator x.
Proof.
  pose proof (denominator_unfolded_nonzero x) as Hd.
  unfold ddq1, denominator, l1, l2, m1, m2. field. exact Hd.
Qed.

Lemma ddq2_control_difference (x : State) (u u' : Control) :
  ddq2 x u - ddq2 x u' =
    (2 * (u_0 u - u_0 u') * cos (- x_1 x + x_0 x) - 4 * (u_1 u - u_1 u'))
    / denominator x.
Proof.
  pose proof (denominator_unfolded_nonzero x) as Hd.
  unfold ddq2, denominator, l1, l2, m1, m2. field. exact Hd.
Qed.

(** X1: the step is affine in the control: the step under a weighted mean
    of two controls is the same weighted mean of the two steps. *)
Theorem plant_dynamics_affine_in_control :
  forall (x : State) (u u' : Control) (t : R),
    plant_dynamics x (mix t u u') =
      state_add (state_scale t (plant_dynamics x u))
                (state_scale (1 - t) (plant_dynamics x u')).
Proof.
  intros x u u' t.
  pose proof (denominator_unfolded_nonzero x) as Hd.
  unfold plant_dynamics, rhs, vertcat, state_add, state_scale, mix.
  cbn [x_0 x_1 x_2 x_3].
  f_equal; try ring.
  - unfold ddq1, dt, l1, l2, m1, m2. cbn [u_0 u_1]. field. exact Hd.
  - unfold ddq2, dt, l1, l2, m1, m2. cbn [u_0 u_1]. field. exact Hd.
Qed.

Lemma same_step_same_control (x : State) (u u' : Control) :
  plant_dynamics x u = plant_dynamics x u' -> u = u'.
Proof.
  intros Heq.
  pose proof (denominator_bounds x) as [Hlo Hhi].
  pose proof (ddq1_control_difference x u u') as H1.
  pose proof (ddq2_control_difference x u u') as H2.
  assert (E1 : ddq1 x u = ddq1 x u').
  { apply (f_equal x_2) in Heq. revert Heq.
    unfold plant_dynamics, rhs, vertcat, state_add, state_scale, dt.
    cbn [x_0 x_1 x_2 x_3]. lra. }
  assert (E2 : ddq2 x u = ddq2 x u').
  { apply (f_equal x_3) in Heq. revert Heq.
    unfold plant_dynamics, rhs, vertcat, state_add, state_scale, dt.
    cbn [x_0 x_1 x_2 x_3]. lra. }
  rewrite E1, Rminus_diag in H1. rewrite E2, Rminus_diag in H2.
  set (c := cos (- x_1 x + x_0 x)) in *.
  assert (Hc : -1 <= c <= 1) by apply COS_bound.
  set (a := u_0 u - u_0 u') in *. set (b := u_1 u - u_1 u') in *.
  assert (N1 : 2 * b * c - 2 * a = 0).
  { apply (Rmult_eq_compat_r (denominator x)) in H1.
    unfold Rdiv in H1. rewrite Rmult_assoc, Rinv_l in H1 by lra. lra. }
  assert (N2 : 2 * a * c - 4 * b = 0).
  { apply (Rmult_eq_compat_r (denominator x)) in H2.
    unfold Rdiv in H2. rewrite Rmult_assoc, Rinv_l in H2 by lra. lra. }
  assert (Ha' : a = b * c) by lra.
  assert (Hprod : b * (2 * c * c - 4) = 0).
  { transitivity (2 * a * c - 4 * b); [rewrite Ha'; ring | exact N2]. }
  assert (Hb : b = 0).
  { destruct (Rmult_integral _ _ Hprod) as [Hz|Hz]; [exact Hz|].
    exfalso. assert (c * c <= 1) by nra. lra. }
  assert (Ha : a = 0) by (rewrite Ha', Hb; ring).
  destruct u as [p q], u' as [p' q']. subst a b. cbn [u_0 u_1] in Ha, Hb.
  f_equal; lra.
Qed.

(** X2: for a fixed state the step is injective in the control: both joints
    are actuated, and two controls that lead to the same next state are the
    same control. *)
Theorem plant_dynamics_injective_in_control :
  forall (x : State) (u u' : Control),
    plant_dynamics x u = plant_dynamics x u' -> u = u'.
Proof.
  intros x u u'. apply same_step_same_control.
Qed.

Lemma plant_dynamics_injective_in_control_witness :
  mkControl (1 / 2) (-1) = mkControl 0.5 (-1).
Proof.
  apply (plant_dynamics_injective_in_control zero_state).
  replace (1 / 2) with 0.5 by lra. reflexivity.
Defined.


(** ** The plant: symmetries *)

Lemma sin_turns (x : R) (k : nat) : sin (x - 2 * INR k * PI) = sin x.
Proof.
  rewrite <- (sin_period (x - 2 * INR k * PI) k). f_equal. ring.
Qed.

Lemma cos_turns (x : R) (k : nat) : cos (x - 2 * INR k * PI) = cos x.
Proof.
  rewrite <- (cos_period (x - 2 * INR k * PI) k). f_equal. ring.
Qed.

Lemma rhs_turn_q1 (q1 q2 dq1 dq2 : R) (u : Control) :
  rhs (mkState (q1 + 2 * PI) q2 dq1 dq2) u = rhs (mkState q1 q2 dq1 dq2) u.
Proof.
  unfold rhs, vertcat, ddq1, ddq2. cbn [x_0 x_1 x_2 x_3].
  replace (-2 * q2 + 2 * (q1 + 2 * PI))
    with (-2 * q2 + 2 * q1 + 2 * INR 2 * PI) by (simpl INR; ring).
  replace (- q2 + (q1 + 2 * PI))
    with (- q2 + q1 + 2 * INR 1 * PI) by (simpl INR; ring).
  replace (-2 * q2 + (q1 + 2 * PI))
    with (-2 * q2 + q1 + 2 * INR 1 * PI) by (simpl INR; ring).
  replace (- q2 + 2 * (q1 + 2 * PI))
    with (- q2 + 2 * q1 + 2 * INR 2 * PI) by (simpl INR; ring).
  replace (q1 + 2 * PI) with (q1 + 2 * INR 1 * PI) by (simpl INR; ring).
  rewrite !sin_period, !cos_period. reflexivity.
Qed.

Lemma rhs_turn_q2 (q1 q2 dq1 dq2 : R) (u : Control) :
  rhs (mkState q1 (q2 + 2 * PI) dq1 dq2) u = rhs (mkState q1 q2 dq1 dq2) u.
Proof.
  unfold rhs, vertcat, ddq1, ddq2. cbn [x_0 x_1 x_2 x_3].
  replace (-2 * (q2 + 2 * PI) + 2 * q1)
    with (-2 * q2 + 2 * q1 - 2 * INR 2 * PI) by (simpl INR; ring).
  replace (- (q2 + 2 * PI) + q1)
    with (- q2 + q1 - 2 * INR 1 * PI) by (simpl INR; ring).
  replace (-2 * (q2 + 2 * PI) + q1)
    with (-2 * q2 + q1 - 2 * INR 2 * PI) by (simpl INR; ring).
  replace (- (q2 + 2 * PI) + 2 * q1)
    with (- q2 + 2 * q1 - 2 * INR 1 * PI) by (simpl INR; ring).
  replace (q2 + 2 * PI) with (q2 + 2 * INR 1 * PI) by (simpl INR; ring).
  rewrite !sin_turns, !cos_turns, !sin_period. reflexivity.
Qed.

(** X3: a full turn of either joint changes nothing but that angle: the
    step from a state with [q1] (or [q2]) advanced by [2*PI] is the step
    from the original state with the same angle advanced by [2*PI]. *)
Theorem plant_dynamics_full_turn :
  forall (q1 q2 dq1 dq2 : R) (u : Control),
    plant_dynamics (mkState (q1 + 2 * PI) q2 dq1 dq2) u
      = state_add (plant_dynamics (mkState q1 q2 dq1 dq2) u)
                  (mkState (2 * PI) 0 0 0) /\
    plant_dynamics (mkState q1 (q2 + 2 * PI) dq1 dq2) u
      = state_add (plant_dynamics (mkState q1 q2 dq1 dq2) u)
                  (mkState 0 (2 * PI) 0 0).
Proof.
  intros q1 q2 dq1 dq2 u. unfold plant_dynamics.
  rewrite rhs_turn_q1, rhs_turn_q2.
  unfold state_add, state_scale. cbn [x_0 x_1 x_2 x_3].
  split; f_equal; ring.
Qed.

Lemma mirrored_step (x : State) (u : Control) :
  plant_dynamics (neg_state x) (neg_control u) = neg_state (plant_dynamics x u).
Proof.
  destruct x as [q1 q2 dq1 dq2]. destruct u as [u1 u2].
  pose proof (denominator_unfolded_nonzero (mkState q1 q2 dq1 dq2)) as Hd.
  cbn [x_0 x_1] in Hd.
  unfold plant_dynamics, rhs, vertcat, state_add, state_scale, neg_state,
    neg_control, ddq1, ddq2, dt, l1, l2, m1, m2.
  cbn [x_0 x_1 x_2 x_3 u_0 u_1].
  replace (-2 * - q2 + 2 * - q1) with (- (-2 * q2 + 2 * q1)) by ring.
  replace (- - q2 + - q1) with (- (- q2 + q1)) by ring.
  replace (-2 * - q2 + - q1) with (- (-2 * q2 + q1)) by ring.
  replace (- - q2 + 2 * - q1) with (- (- q2 + 2 * q1)) by ring.
  rewrite !sin_neg, !cos_neg.
  f_equal; try ring; field; exact Hd.
Qed.

(** X4: the step commutes with the sign flip: from the mirrored state under
    the mirrored control the plant reaches the mirrored next state. *)
Theorem plant_dynamics_odd :
  forall (x : State) (u : Control),
    plant_dynamics (neg_state x) (neg_control u)
      = neg_state (plant_dynamics x u).
Proof.
  intros x u. apply mirrored_step.
Qed.

(** ** The transcription: its feasible set *)

Lemma rollout_length (us : list Control) :
  forall x, length (rollout x us) = S (length us).
Proof.
  induction us as [|u us IH]; intros x; cbn [rollout length].
  - reflexivity.
  - rewrite IH. reflexivity.
Qed.

Lemma rollout_head (us : list Control) (x d : State) :
  nth 0 (rollout x us) d = x.
Proof. destruct us; reflexivity. Qed.

Lemma rollout_step (us : list Control) :
  forall x k, (k < length us)%nat ->
    nth (k + 1) (rollout x us) zero_state
      = plant_dynamics (nth k (rollout x us) zero_state)
                       (nth k us zero_control).
Proof.
  induction us as [|u us IH]; intros x k Hk; cbn [length] in Hk; [lia|].
  rewrite Nat.add_1_r. cbn [rollout nth].
  destruct k as [|k].
  - rewrite rollout_head. reflexivity.
  - rewrite <- (Nat.add_1_r k). apply IH. lia.
Qed.

Lemma rollout_unique (us : list Control) :
  forall xs x,
    length xs = S (length us) ->
    nth 0 xs zero_state = x ->
    (forall k, (k < length us)%nat ->
       nth (k + 1) xs zero_state
         = plant_dynamics (nth k xs zero_state) (nth k us zero_control)) ->
    xs = rollout x us.
Proof.
  induction us as [|u us IH]; intros xs x Hlen H0 Hstep.
  - destruct xs as [|y [|z xs]]; try discriminate.
    cbn in H0. subst y. reflexivity.
  - destruct xs as [|y xs]; [discriminate|].
    cbn [nth] in H0. subst y. cbn [rollout]. f_equal.
    apply IH.
    + cbn [length] in Hlen. lia.
    + specialize (Hstep 0%nat). cbn [length] in Hstep.
      rewrite Nat.add_0_l in Hstep. cbn [nth] in Hstep. apply Hstep. lia.
    + intros k Hk. specialize (Hstep (S k)). cbn [length] in Hstep.
      change (S k + 1)%nat with (S (k + 1)) in Hstep.
      cbn [nth] in Hstep. apply Hstep. lia.
Qed.

Lemma trajectory_constraints_rollout (x0 : State) (N : nat) (v : Values) :
  trajectory_constraints x0 N v <->
  val_x v = rollout x0 (val_u v) /\
  length (val_u v) = N /\
  Forall (in_box (-1.99) 1.99) (val_u v).
Proof.
  unfold trajectory_constraints, x_col, u_col. split.
  - intros (Hx & Hu & H0 & Hdyn & Hbox). split; [|split].
    + apply rollout_unique.
      * rewrite Hx, Hu. lia.
      * exact H0.
      * intros k Hk. apply Hdyn. lia.
    + exact Hu.
    + apply Forall_nth. intros i d Hi.
      rewrite (nth_indep _ d zero_control Hi). apply Hbox. lia.
  - intros (Hroll & Hu & Hbox). rewrite Hroll.
    split; [rewrite rollout_length; lia|]. split; [exact Hu|].
    split; [apply rollout_head|]. split.
    + intros k Hk. apply rollout_step. lia.
    + intros k Hk. rewrite Forall_nth in Hbox.
      apply (Hbox k zero_control). lia.
Qed.

(** X5: the feasible points of the [solve_ocp] problem are exactly the
    rollouts of the plant from [x_init]: any N controls inside the box give
    one, with the states the plant visits, and there are no others.  In
    particular the problem always has feasible points. *)
Theorem ocp_feasible_iff_rollout :
  forall (x_init : State) (N : nat) (Q : Mat4) (Rm : Mat2) (v : Values),
    feasible (snd (ocp_problem x_init N Q Rm)) v <->
    val_x v = rollout x_init (val_u v) /\
    length (val_u v) = N /\
    Forall (in_box (-1.99) 1.99) (val_u v).
Proof.
  intros x_init N Q Rm v.
  destruct (ocp_problem_spec x_init N Q Rm) as (Hv & Hc & _ & _).
  rewrite (feasible_iff _ x_init N Hv Hc v).
  apply trajectory_constraints_rollout.
Qed.

(** X6: a feasible point is determined by its states as well: two feasible
    points of one problem with the same state trajectory have the same
    control sequence. *)
Theorem ocp_states_determine_controls :
  forall (x_init : State) (N : nat) (Q : Mat4) (Rm : Mat2) (v w : Values),
    feasible (snd (ocp_problem x_init N Q Rm)) v ->
    feasible (snd (ocp_problem x_init N Q Rm)) w ->
    val_x v = val_x w ->
    val_u v = val_u w.
Proof.
  intros x_init N Q Rm v w Hv Hw Hx.
  destruct (ocp_problem_spec x_init N Q Rm) as (Hvars & Hc & _ & _).
  apply (feasible_iff _ x_init N Hvars Hc) in Hv, Hw.
  destruct Hv as (_ & Hlv & _ & Hdv & _).
  destruct Hw as (_ & Hlw & _ & Hdw & _).
  apply (nth_ext _ _ zero_control zero_control); [lia|].
  intros k Hk.
  assert (Hxc : forall j, x_col j v = x_col j w).
  { intros j. unfold x_col. rewrite Hx. reflexivity. }
  change (u_col k v = u_col k w).
  apply (same_step_same_control (x_col k v)).
  rewrite <- (Hdv k) by lia.
  rewrite (Hxc k), <- (Hdw k) by lia.
  apply Hxc.
Qed.

Lemma ocp_states_determine_controls_witness :
  val_u sol_push = val_u sol_push.
Proof.
  apply (ocp_states_determine_controls zero_state 1
           (diag4 10 10 10 10) (diag2 1 1) sol_push sol_push).
  - apply one_step_feasible; cbn; lra.
  - apply one_step_feasible; cbn; lra.
  - reflexivity.
Defined.

(** ** The objective: what enters it and what does not *)

Lemma stage_fold_ext (Q : Mat4) (Rm : Mat2) (v w : Values) (ks : list nat) :
  (forall k, In k ks -> stage_cost Q Rm k v = stage_cost Q Rm k w) ->
  forall a,
    fold_left (fun a k => a + stage_cost Q Rm k v) ks a
    = fold_left (fun a k => a + stage_cost Q Rm k w) ks a.
Proof.
  induction ks as [|k ks IH]; intros Heq a; cbn [fold_left].
  - reflexivity.
  - rewrite (Heq k) by (left; reflexivity).
    apply IH. intros j Hj. apply Heq. right. exact Hj.
Qed.

Lemma stage_sum_ext (Q : Mat4) (Rm : Mat2) (N : nat) (v w : Values) :
  (forall k, (k < N)%nat -> stage_cost Q Rm k v = stage_cost Q Rm k w) ->
  stage_sum Q Rm N v = stage_sum Q Rm N w.
Proof.
  intros Heq. unfold stage_sum. apply stage_fold_ext.
  intros k Hk. apply in_seq in Hk. apply Heq. lia.
Qed.

(** X7: the state at the end of the horizon is free: neither the objective
    of the [solve_ocp] problem nor that of an MPC iteration depends on the
    last of the N+1 states, so no cost is ever charged on [x[:, N]]. *)
Theorem objective_ignores_last_state :
  forall (x0 : State) (N : nat) (Q : Mat4) (Rm : Mat2) (terminal_cost : R)
         (xs : list State) (xN xN' : State) (us : list Control),
    length xs = N ->
    objective (snd (ocp_problem x0 N Q Rm)) (mkValues (xs ++ [xN]) us)
      = objective (snd (ocp_problem x0 N Q Rm)) (mkValues (xs ++ [xN']) us) /\
    objective (snd (mpc_problem x0 N Q Rm terminal_cost))
              (mkValues (xs ++ [xN]) us)
      = objective (snd (mpc_problem x0 N Q Rm terminal_cost))
                  (mkValues (xs ++ [xN']) us).
Proof.
  intros x0 N Q Rm t xs xN xN' us Hlen.
  destruct (ocp_problem_spec x0 N Q Rm) as (_ & _ & Ho & _).
  destruct (mpc_problem_spec x0 N Q Rm t) as (_ & _ & Hm & _).
  rewrite !Ho, !Hm.
  assert (Hsum : stage_sum Q Rm N (mkValues (xs ++ [xN]) us)
                 = stage_sum Q Rm N (mkValues (xs ++ [xN']) us)).
  { apply stage_sum_ext. intros k Hk.
    unfold stage_cost, x_col, u_col. cbn [val_x val_u].
    rewrite !app_nth1 by lia. reflexivity. }
  rewrite Hsum. split; reflexivity.
Qed.

Lemma objective_ignores_last_state_witness :
  objective (snd (ocp_problem zero_state 1 (diag4 10 10 10 10) (diag2 1 1)))
            (mkValues ([zero_state] ++ [mkState 7 7 7 7]) [mkControl 1 1])
  = objective (snd (ocp_problem zero_state 1 (diag4 10 10 10 10) (diag2 1 1)))
              (mkValues ([zero_state] ++ [zero_state]) [mkControl 1 1]).
Proof.
  apply (objective_ignores_last_state zero_state 1 (diag4 10 10 10 10)
           (diag2 1 1) 0 [zero_state] (mkState 7 7 7 7) zero_state
           [mkControl 1 1]).
  reflexivity.
Defined.

(** X8: an MPC iteration and [solve_ocp] pose the same optimisation: the
    terminal cost is a number fixed before the solve, so the two problems
    have the same feasible points, objectives that differ by that number at
    every point, and the same minimisers. *)
Theorem terminal_cost_does_not_move_minimisers :
  forall (x0 : State) (N : nat) (Q : Mat4) (Rm : Mat2) (terminal_cost : R)
         (v : Values),
    (feasible (snd (mpc_problem x0 N Q Rm terminal_cost)) v
       <-> feasible (snd (ocp_problem x0 N Q Rm)) v) /\
    objective (snd (mpc_problem x0 N Q Rm terminal_cost)) v
      = objective (snd (ocp_problem x0 N Q Rm)) v + terminal_cost /\
    (minimiser (snd (mpc_problem x0 N Q Rm terminal_cost)) v
       <-> minimiser (snd (ocp_problem x0 N Q Rm)) v).
Proof.
  intros x0 N Q Rm t v.
  destruct (ocp_problem_spec x0 N Q Rm) as (Hv & Hc & Ho & _).
  destruct (mpc_problem_spec x0 N Q Rm t) as (Hv' & Hc' & Ho' & _).
  assert (Hfeas : forall w,
            feasible (snd (mpc_problem x0 N Q Rm t)) w
            <-> feasible (snd (ocp_problem x0 N Q Rm)) w).
  { intros w. rewrite (feasible_iff _ x0 N Hv Hc w).
    apply (feasible_iff _ x0 N Hv' Hc' w). }
  split; [apply Hfeas|]. split; [rewrite Ho, Ho'; reflexivity|].
  unfold minimiser. split.
  - intros [Hf Hmin]. split; [apply Hfeas; exact Hf|].
    intros w Hw. apply Hfeas in Hw. specialize (Hmin w Hw).
    rewrite !Ho' in Hmin. rewrite !Ho. lra.
  - intros [Hf Hmin]. split; [apply Hfeas; exact Hf|].
    intros w Hw. apply Hfeas in Hw. specialize (Hmin w Hw).
    rewrite !Ho in Hmin. rewrite !Ho'. lra.
Qed.

(** ** The rest state and a lower bound *)

Lemma rest_is_fixed : plant_dynamics zero_state zero_control = zero_state.
Proof.
  unfold plant_dynamics, rhs, vertcat, state_add, state_scale, ddq1, ddq2,
    zero_state, zero_control, dt, l1, l2, m1, m2, g.
  cbn [x_0 x_1 x_2 x_3 u_0 u_1].
  replace (-2 * 0 + 2 * 0) with 0 by ring.
  replace (-2 * 0 + 0) with 0 by ring.
  replace (- 0 + 2 * 0) with 0 by ring.
  replace (- 0 + 0) with 0 by ring.
  rewrite sin_0, cos_0. f_equal; lra.
Qed.

Lemma rollout_rest (N : nat) :
  rollout zero_state (repeat zero_control N) = repeat zero_state (N + 1).
Proof.
  induction N as [|N IH]; cbn [repeat rollout Nat.add].
  - reflexivity.
  - rewrite rest_is_fixed, IH. reflexivity.
Qed.

Lemma quad_rest (Q : Mat4) (Rm : Mat2) :
  quad4 Q zero_state = 0 /\ quad2 Rm zero_control = 0.
Proof.
  unfold quad4, quad2, mtimes4, mtimes2, dot4, dot2, zero_state, zero_control.
  cbn [x_0 x_1 x_2 x_3 u_0 u_1]. split; ring.
Qed.

Lemma stage_sum_rest (Q : Mat4) (Rm : Mat2) (N : nat) :
  stage_sum Q Rm N (mkValues (repeat zero_state (N + 1)) (repeat zero_control N))
  = 0.
Proof.
  unfold stage_sum.
  assert (H : forall ks a, a = 0 ->
            fold_left
              (fun a k =>
                 a + stage_cost Q Rm k
                       (mkValues (repeat zero_state (N + 1))
                                 (repeat zero_control N))) ks a = 0).
  { induction ks as [|k ks IH]; intros a Ha; cbn [fold_left]; [exact Ha|].
    apply IH. subst a.
    unfold stage_cost, x_col, u_col. cbn [val_x val_u].
    rewrite !nth_repeat.
    destruct (quad_rest Q Rm) as [-> ->]. ring. }
  apply H. reflexivity.
Qed.

Lemma stage_sum_nonneg (Q : Mat4) (Rm : Mat2) (N : nat) (v : Values) :
  psd4 Q -> psd2 Rm -> 0 <= stage_sum Q Rm N v.
Proof.
  intros HQ HR. unfold stage_sum. apply fold_stage_ge.
  intros k. unfold stage_cost.
  specialize (HQ (x_col k v)). specialize (HR (u_col k v)). lra.
Qed.

(** X9: from the rest state, with positive semi-definite weights and any
    horizon, staying at rest with zero controls is a global minimiser of the
    [solve_ocp] problem and costs 0; so a solver that returns global
    minimisers makes [solve_ocp] return exactly 0 there. *)
Theorem rest_is_optimal :
  forall (Q : Mat4) (Rm : Mat2) (N : nat),
    psd4 Q -> psd2 Rm ->
    let opti := snd (ocp_problem zero_state N Q Rm) in
    let stay := mkValues (repeat zero_state (N + 1)) (repeat zero_control N) in
    minimiser opti stay /\
    objective opti stay = 0 /\
    (forall ipopt c,
       solves_to_optimality ipopt opti ->
       solve_ocp ipopt zero_state N Q Rm = Return c -> c = 0).
Proof.
  intros Q Rm N HQ HR opti stay. subst opti stay.
  destruct (ocp_problem_spec zero_state N Q Rm) as (Hv & Hc & Ho & _).
  assert (Hfeas : feasible (snd (ocp_problem zero_state N Q Rm))
                    (mkValues (repeat zero_state (N + 1))
                              (repeat zero_control N))).
  { apply (feasible_iff _ zero_state N Hv Hc).
    apply trajectory_constraints_rollout. cbn [val_x val_u].
    split; [symmetry; apply rollout_rest|].
    split; [apply repeat_length|].
    apply Forall_forall. intros u Hu. apply repeat_spec in Hu. subst u.
    unfold in_box, zero_control. cbn [u_0 u_1]. lra. }
  assert (Hzero : objective (snd (ocp_problem zero_state N Q Rm))
                    (mkValues (repeat zero_state (N + 1))
                              (repeat zero_control N)) = 0).
  { rewrite Ho. apply stage_sum_rest. }
  split; [|split].
  - split; [exact Hfeas|]. intros w _. rewrite Hzero, Ho.
    apply stage_sum_nonneg; assumption.
  - exact Hzero.
  - intros ipopt c Hopt. rewrite solve_ocp_unfold.
    destruct (ipopt (snd (ocp_problem zero_state N Q Rm))) as [s|] eqn:Hs;
      [|discriminate].
    intros H. injection H as <-.
    destruct (Hopt s Hs) as [_ Hmin]. specialize (Hmin _ Hfeas).
    rewrite Hzero, Ho in Hmin.
    pose proof (stage_sum_nonneg Q Rm N s HQ HR). lra.
Qed.

Lemma rest_is_optimal_witness :
  psd4 (diag4 10 10 10 10) /\ psd2 (diag2 1 1) /\
  objective (snd (ocp_problem zero_state 10 (diag4 10 10 10 10) (diag2 1 1)))
            (mkValues (repeat zero_state (10 + 1)) (repeat zero_control 10))
  = 0.
Proof.
  split; [exact psd_diag4_10|]. split; [exact psd_diag2_1|].
  apply (rest_is_optimal (diag4 10 10 10 10) (diag2 1 1) 10
           psd_diag4_10 psd_diag2_1).
Defined.

(** X10: with positive semi-definite weights and a horizon of at least one
    step, no feasible point of the [solve_ocp] problem costs less than the
    first stage's state term [x_init' Q x_init]. *)
Theorem ocp_cost_at_least_initial_term :
  forall (x_init : State) (N : nat) (Q : Mat4) (Rm : Mat2) (v : Values),
    psd4 Q -> psd2 Rm -> (1 <= N)%nat ->
    feasible (snd (ocp_problem x_init N Q Rm)) v ->
    quad4 Q x_init <= objective (snd (ocp_problem x_init N Q Rm)) v.
Proof.
  intros x_init N Q Rm v HQ HR HN Hfeas.
  destruct (ocp_problem_spec x_init N Q Rm) as (Hv & Hc & Ho & _).
  apply (feasible_iff _ x_init N Hv Hc) in Hfeas.
  destruct Hfeas as (_ & _ & H0 & _).
  rewrite Ho. unfold stage_sum.
  destruct N as [|N]; [lia|]. cbn [seq fold_left].
  apply Rle_trans with (0 + stage_cost Q Rm 0 v).
  - unfold stage_cost. rewrite H0. specialize (HR (u_col 0 v)). lra.
  - apply fold_stage_ge. intros k. unfold stage_cost.
    specialize (HQ (x_col k v)). specialize (HR (u_col k v)). lra.
Qed.

Lemma ocp_cost_at_least_initial_term_witness :
  quad4 (diag4 10 10 10 10) x_tilted
  <= objective (snd (ocp_problem x_tilted 1 (diag4 10 10 10 10) (diag2 1 1)))
               sol_tilted.
Proof.
  apply (ocp_cost_at_least_initial_term x_tilted 1 (diag4 10 10 10 10)
           (diag2 1 1) sol_tilted psd_diag4_10 psd_diag2_1).
  - lia.
  - apply one_step_feasible; cbn; lra.
Defined.

(** ** Mirror symmetry of the problem *)

Lemma neg_zero_state : neg_state zero_state = zero_state.
Proof. unfold neg_state, zero_state. cbn [x_0 x_1 x_2 x_3]. f_equal; lra. Qed.

Lemma neg_zero_control : neg_control zero_control = zero_control.
Proof. unfold neg_control, zero_control. cbn [u_0 u_1]. f_equal; lra. Qed.

Lemma neg_state_involutive (x : State) : neg_state (neg_state x) = x.
Proof.
  destruct x. unfold neg_state. cbn [x_0 x_1 x_2 x_3]. f_equal; lra.
Qed.

Lemma neg_control_involutive (u : Control) : neg_control (neg_control u) = u.
Proof. destruct u. unfold neg_control. cbn [u_0 u_1]. f_equal; lra. Qed.

Lemma neg_values_involutive (v : Values) : neg_values (neg_values v) = v.
Proof.
  destruct v as [xs us]. unfold neg_values. cbn [val_x val_u].
  rewrite !map_map. f_equal.
  - rewrite <- (map_id xs) at 2. apply map_ext. apply neg_state_involutive.
  - rewrite <- (map_id us) at 2. apply map_ext. apply neg_control_involutive.
Qed.

Lemma x_col_neg (k : nat) (v : Values) :
  x_col k (neg_values v) = neg_state (x_col k v).
Proof.
  unfold x_col, neg_values. cbn [val_x].
  rewrite <- (map_nth neg_state). f_equal. symmetry. apply neg_zero_state.
Qed.

Lemma u_col_neg (k : nat) (v : Values) :
  u_col k (neg_values v) = neg_control (u_col k v).
Proof.
  unfold u_col, neg_values. cbn [val_u].
  rewrite <- (map_nth neg_control). f_equal. symmetry. apply neg_zero_control.
Qed.

Lemma quad_neg (Q : Mat4) (Rm : Mat2) (x : State) (u : Control) :
  quad4 Q (neg_state x) = quad4 Q x /\ quad2 Rm (neg_control u) = quad2 Rm u.
Proof.
  unfold quad4, quad2, mtimes4, mtimes2, dot4, dot2, neg_state, neg_control.
  cbn [x_0 x_1 x_2 x_3 u_0 u_1]. split; ring.
Qed.

Lemma stage_sum_neg (Q : Mat4) (Rm : Mat2) (N : nat) (v : Values) :
  stage_sum Q Rm N (neg_values v) = stage_sum Q Rm N v.
Proof.
  apply stage_sum_ext. intros k _. unfold stage_cost.
  rewrite x_col_neg, u_col_neg.
  destruct (quad_neg Q Rm (x_col k v) (u_col k v)) as [-> ->]. reflexivity.
Qed.

Lemma feasible_neg (x0 : State) (N : nat) (Q : Mat4) (Rm : Mat2) (v : Values) :
  feasible (snd (ocp_problem x0 N Q Rm)) v ->
  feasible (snd (ocp_problem (neg_state x0) N Q Rm)) (neg_values v).
Proof.
  destruct (ocp_problem_spec x0 N Q Rm) as (Hv & Hc & _ & _).
  destruct (ocp_problem_spec (neg_state x0) N Q Rm) as (Hv' & Hc' & _ & _).
  rewrite (feasible_iff _ x0 N Hv Hc v).
  rewrite (feasible_iff _ (neg_state x0) N Hv' Hc' (neg_values v)).
  unfold trajectory_constraints.
  intros (Hx & Hu & H0 & Hdyn & Hbox).
  split; [unfold neg_values; cbn [val_x]; rewrite length_map; exact Hx|].
  split; [unfold neg_values; cbn [val_u]; rewrite length_map; exact Hu|].
  split; [rewrite x_col_neg, H0; reflexivity|]. split.
  - intros k Hk. rewrite !x_col_neg, u_col_neg, (Hdyn k Hk).
    symmetry. apply mirrored_step.
  - intros k Hk. rewrite u_col_neg. specialize (Hbox k Hk).
    unfold neg_control. cbn [u_0 u_1]. lra.
Qed.

(** X11: the optimal control problem is symmetric under the sign flip: the
    mirror image of a global minimiser from [x0] is a global minimiser from
    [-x0], with the same objective value; the optimal cost is an even
    function of the initial state. *)
Theorem ocp_mirror_symmetry :
  forall (x0 : State) (N : nat) (Q : Mat4) (Rm : Mat2) (v : Values),
    minimiser (snd (ocp_problem x0 N Q Rm)) v ->
    minimiser (snd (ocp_problem (neg_state x0) N Q Rm)) (neg_values v) /\
    objective (snd (ocp_problem (neg_state x0) N Q Rm)) (neg_values v)
      = objective (snd (ocp_problem x0 N Q Rm)) v.
Proof.
  intros x0 N Q Rm v [Hfeas Hmin].
  destruct (ocp_problem_spec x0 N Q Rm) as (_ & _ & Ho & _).
  destruct (ocp_problem_spec (neg_state x0) N Q Rm) as (_ & _ & Ho' & _).
  split; [split|].
  - apply feasible_neg. exact Hfeas.
  - intros w Hw. apply feasible_neg in Hw.
    rewrite neg_state_involutive in Hw.
    specialize (Hmin _ Hw).
    rewrite !Ho in Hmin. rewrite !Ho'.
    rewrite stage_sum_neg in *. exact Hmin.
  - rewrite Ho, Ho'. apply stage_sum_neg.
Qed.

Lemma ocp_mirror_symmetry_witness :
  minimiser (snd (ocp_problem (neg_state x_tilted) 1
                    (diag4 10 10 10 10) (diag2 1 1)))
            (neg_values sol_tilted).
Proof.
  apply (ocp_mirror_symmetry x_tilted 1 (diag4 10 10 10 10) (diag2 1 1)
           sol_tilted).
  apply one_step_rest_minimiser. exact psd_diag2_1.
Defined.

(** ** Sample generation: the returned arrays *)

Section SampleSetFacts.

Variable ipopt : Opti -> option Values.
Variable rng : Type.
Variable uniform : R -> R -> rng -> State * rng.
Variable N : nat.
Variable Q : Mat4.
Variable Rm : Mat2.

Lemma generate_unfold (num_samples : nat) (gen : rng) :
  generate_ocp_samples ipopt rng uniform num_samples N Q Rm gen =
    Return (map fst (successes ipopt N Q Rm (draws rng uniform num_samples gen)),
            map snd (successes ipopt N Q Rm (draws rng uniform num_samples gen))).
Proof.
  unfold generate_ocp_samples.
  destruct (sample_loop_spec ipopt rng uniform N Q Rm num_samples [] [] gen)
    as [gen' Hloop].
  rewrite Hloop. reflexivity.
Qed.

Lemma draws_length (n : nat) : forall gen, length (draws rng uniform n gen) = n.
Proof.
  induction n as [|n IH]; intros gen; cbn [draws].
  - reflexivity.
  - destruct (uniform (-1.5) 1.5 gen) as [x0 gen1]. cbn [length].
    rewrite IH. reflexivity.
Qed.

Lemma successes_cons (x0 : State) (xs : list State) :
  successes ipopt N Q Rm (x0 :: xs) =
    match solve_ocp ipopt x0 N Q Rm with
    | Return J => (x0, J) :: successes ipopt N Q Rm xs
    | Raise _ => successes ipopt N Q Rm xs
    end.
Proof.
  unfold successes. cbn [flat_map].
  destruct (solve_ocp ipopt x0 N Q Rm); reflexivity.
Qed.

Lemma successes_paired (xs : list State) :
  Forall (fun p => In (fst p) xs /\
                   solve_ocp ipopt (fst p) N Q Rm = Return (snd p))
         (successes ipopt N Q Rm xs).
Proof.
  induction xs as [|x0 xs IH].
  - constructor.
  - rewrite successes_cons.
    assert (IH' : Forall (fun p => In (fst p) (x0 :: xs) /\
                     solve_ocp ipopt (fst p) N Q Rm = Return (snd p))
                    (successes ipopt N Q Rm xs)).
    { eapply Forall_impl; [|exact IH]. intros p [Hin Hs].
      split; [right; exact Hin | exact Hs]. }
    destruct (solve_ocp ipopt x0 N Q Rm) as [J|e] eqn:Hs; [|exact IH'].
    constructor; [|exact IH']. cbn [fst snd]. split; [left; reflexivity|exact Hs].
Qed.

Lemma successes_length (xs : list State) :
  (length (successes ipopt N Q Rm xs) <= length xs)%nat.
Proof.
  induction xs as [|x0 xs IH]; [cbn; lia|].
  rewrite successes_cons.
  destruct (solve_ocp ipopt x0 N Q Rm); cbn [length]; lia.
Qed.

Lemma successes_nil_iff (xs : list State) :
  successes ipopt N Q Rm xs = [] <->
  forall x0, In x0 xs -> solve_ocp ipopt x0 N Q Rm = Raise RuntimeError.
Proof.
  induction xs as [|x0 xs IH].
  - split; [intros _ x [] | reflexivity].
  - rewrite successes_cons. split.
    + destruct (solve_ocp ipopt x0 N Q Rm) as [J|e] eqn:Hs; [discriminate|].
      intros Hnil x [<-|Hin].
      * rewrite Hs. f_equal.
        apply (solve_ocp_raises_runtime_only ipopt x0 N Q Rm e Hs).
      * apply IH; assumption.
    + intros Hall. rewrite (Hall x0) by (left; reflexivity).
      apply IH. intros x Hin. apply Hall. right. exact Hin.
Qed.

Lemma successes_all (xs : list State) :
  (forall x0, In x0 xs -> exists J, solve_ocp ipopt x0 N Q Rm = Return J) ->
  map fst (successes ipopt N Q Rm xs) = xs.
Proof.
  induction xs as [|x0 xs IH]; intros Hall; [reflexivity|].
  rewrite successes_cons.
  destruct (Hall x0) as [J HJ]; [left; reflexivity|]. rewrite HJ.
  cbn [map fst]. f_equal. apply IH.
  intros x Hin. apply Hall. right. exact Hin.
Qed.

End SampleSetFacts.

(** X12: the call always returns two arrays of one length, at most
    [num_samples]; entry i of [Y] is the cost [solve_ocp] returns for entry i
    of [X], and every entry of [X] is one of the states drawn. *)
Theorem generate_ocp_samples_paired :
  forall (ipopt : Opti -> option Values)
         (rng : Type) (uniform : R -> R -> rng -> State * rng)
         (num_samples N : nat) (Q : Mat4) (Rm : Mat2) (gen : rng),
  exists X Y,
    generate_ocp_samples ipopt rng uniform num_samples N Q Rm gen
      = Return (X, Y) /\
    Forall2 (fun x0 J => solve_ocp ipopt x0 N Q Rm = Return J) X Y /\
    (length X <= num_samples)%nat /\
    incl X (draws rng uniform num_samples gen).
Proof.
  intros ipopt rng uniform num_samples N Q Rm gen.
  pose proof (successes_paired ipopt N Q Rm
                (draws rng uniform num_samples gen)) as Hp.
  pose proof (successes_length ipopt N Q Rm
                (draws rng uniform num_samples gen)) as Hl.
  rewrite (draws_length rng uniform) in Hl.
  eexists. eexists. split; [apply generate_unfold|].
  set (ps := successes ipopt N Q Rm (draws rng uniform num_samples gen)) in *.
  split; [|split].
  - clear Hl. clearbody ps. induction Hp as [|p ps' [_ Hs] _ IH]; cbn [map].
    + constructor.
    + constructor; [exact Hs | exact IH].
  - rewrite length_map. exact Hl.
  - intros x Hin. apply in_map_iff in Hin. destruct Hin as (p & <- & Hin).
    rewrite Forall_forall in Hp. apply (Hp p Hin).
Qed.

(** X13: the call returns two empty arrays exactly when the solve of every
    drawn state raises [RuntimeError]; this is the case in which the main
    block reports that no valid samples were generated. *)
Theorem generate_ocp_samples_empty_iff :
  forall (ipopt : Opti -> option Values)
         (rng : Type) (uniform : R -> R -> rng -> State * rng)
         (num_samples N : nat) (Q : Mat4) (Rm : Mat2) (gen : rng),
    generate_ocp_samples ipopt rng uniform num_samples N Q Rm gen
      = Return ([], []) <->
    (forall x0, In x0 (draws rng uniform num_samples gen) ->
       solve_ocp ipopt x0 N Q Rm = Raise RuntimeError).
Proof.
  intros ipopt rng uniform num_samples N Q Rm gen.
  rewrite generate_unfold, <- successes_nil_iff.
  split.
  - intros H. injection H as H _. apply map_eq_nil in H. exact H.
  - intros ->. reflexivity.
Qed.

(** X14: when the solve of every drawn state succeeds, [X] is the list of
    all [num_samples] draws, in order, and [Y] has [num_samples] entries. *)
Theorem generate_ocp_samples_all_succeed :
  forall (ipopt : Opti -> option Values)
         (rng : Type) (uniform : R -> R -> rng -> State * rng)
         (num_samples N : nat) (Q : Mat4) (Rm : Mat2) (gen : rng),
    (forall x0, In x0 (draws rng uniform num_samples gen) ->
       exists J, solve_ocp ipopt x0 N Q Rm = Return J) ->
    exists Y,
      generate_ocp_samples ipopt rng uniform num_samples N Q Rm gen
        = Return (draws rng uniform num_samples gen, Y) /\
      length Y = num_samples.
Proof.
  intros ipopt rng uniform num_samples N Q Rm gen Hall.
  eexists. split.
  - rewrite generate_unfold.
    rewrite (successes_all ipopt N Q Rm _ Hall). reflexivity.
  - rewrite length_map, <- (length_map fst).
    rewrite (successes_all ipopt N Q Rm _ Hall).
    apply draws_length.
Qed.

Lemma generate_ocp_samples_all_succeed_witness :
  exists Y,
    generate_ocp_samples (fun _ => Some sol_push) (list State) scripted_uniform
      2 1 (diag4 10 10 10 10) (diag2 1 1) [x_tilted; zero_state]
      = Return ([x_tilted; zero_state], Y) /\
    length Y = 2%nat.
Proof.
  apply (generate_ocp_samples_all_succeed (fun _ => Some sol_push) (list State)
           scripted_uniform 2 1 (diag4 10 10 10 10) (diag2 1 1)
           [x_tilted; zero_state]).
  intros x0 _. rewrite solve_ocp_unfold. eexists. reflexivity.
Defined.

(** X15: with positive semi-definite weights every label the call returns
    is nonnegative. *)
Theorem generate_ocp_samples_labels_nonnegative :
  forall (ipopt : Opti -> option Values)
         (rng : Type) (uniform : R -> R -> rng -> State * rng)
         (num_samples N : nat) (Q : Mat4) (Rm : Mat2) (gen : rng)
         (X : list State) (Y : list R),
    psd4 Q -> psd2 Rm ->
    generate_ocp_samples ipopt rng uniform num_samples N Q Rm gen
      = Return (X, Y) ->
    Forall (fun J => 0 <= J) Y.
Proof.
  intros ipopt rng uniform num_samples N Q Rm gen X Y HQ HR.
  rewrite generate_unfold. intros H. injection H as _ <-.
  pose proof (successes_paired ipopt N Q Rm
                (draws rng uniform num_samples gen)) as Hp.
  apply Forall_map. eapply Forall_impl; [|exact Hp].
  intros [x0 J] [_ Hs]. cbn [fst snd] in *.
  rewrite solve_ocp_unfold in Hs.
  destruct (ipopt _) as [s|]; [|discriminate].
  injection Hs as <-. apply stage_sum_nonneg; assumption.
Qed.

Lemma generate_ocp_samples_labels_nonnegative_witness :
  Forall (fun J => 0 <= J)
    [stage_sum (diag4 10 10 10 10) (diag2 1 1) 1 sol_push;
     stage_sum (diag4 10 10 10 10) (diag2 1 1) 1 sol_push].
Proof.
  apply (generate_ocp_samples_labels_nonnegative (fun _ => Some sol_push)
           (list State) scripted_uniform 2 1 (diag4 10 10 10 10) (diag2 1 1)
           [x_tilted; zero_state] [x_tilted; zero_state] _
           psd_diag4_10 psd_diag2_1).
  rewrite generate_unfold. cbn [draws scripted_uniform hd tl].
  rewrite !successes_cons, !solve_ocp_unfold. reflexivity.
Defined.

(** ** Sample generation: the generator *)

Lemma sample_loop_generator
    (ipopt : Opti -> option Values)
    (rng : Type) (uniform : R -> R -> rng -> State * rng)
    (N : nat) (Q : Mat4) (Rm : Mat2) (n : nat) :
  forall X Y gen X' Y' gen',
    sample_loop ipopt rng uniform n N Q Rm (X, Y, gen) = Return (X', Y', gen') ->
    gen' = advance rng uniform n gen.
Proof.
  induction n as [|n IH]; intros X Y gen X' Y' gen'; cbn [sample_loop advance].
  - intros H. injection H as _ _ <-. reflexivity.
  - unfold sample_body.
    destruct (uniform (-1.5) 1.5 gen) as [x0 gen1]. cbn [snd].
    destruct (solve_ocp ipopt x0 N Q Rm) as [J|e] eqn:Hs.
    + apply IH.
    + apply solve_ocp_raises_runtime_only in Hs. subst e. apply IH.
Qed.

(** X16: the sampling loop draws once per iteration whether or not the
    solve succeeds: whatever the solver does, the loop completes and the
    generator it ends with is the one reached after exactly [num_samples]
    draws. *)
Theorem sampling_consumes_one_draw_each :
  forall (ipopt : Opti -> option Values)
         (rng : Type) (uniform : R -> R -> rng -> State * rng)
         (num_samples N : nat) (Q : Mat4) (Rm : Mat2) (gen : rng),
  exists X Y,
    sample_loop ipopt rng uniform num_samples N Q Rm ([], [], gen)
      = Return (X, Y, advance rng uniform num_samples gen).
Proof.
  intros ipopt rng uniform num_samples N Q Rm gen.
  destruct (sample_loop_spec ipopt rng uniform N Q Rm num_samples [] [] gen)
    as [g Hg].
  pose proof (sample_loop_generator _ _ _ _ _ _ _ _ _ _ _ _ _ Hg) as E.
  subst g. eexists. eexists. exact Hg.
Qed.

(** ** The MPC loop: when it returns and how it fails *)

Section MPCLoopFacts.

Variable ipopt : Opti -> option Values.
Variable predict : State -> R.
Variable N : nat.
Variable Q : Mat4.
Variable Rm : Mat2.

Lemma mpc_controller_first_raise (x_init : State) (dt : R) (H : nat) :
  mpc_controller ipopt predict N Q Rm x_init dt (S H) = Raise UnboundLocalError.
Proof. reflexivity. Qed.

Lemma mpc_loop_raise (H : nat) :
  forall st e,
    mpc_loop ipopt predict N Q Rm H st = Raise e ->
    (sol st = None /\ e = UnboundLocalError) \/
    (sol st <> None /\ e = RuntimeError).
Proof.
  destruct H as [|n]; intros st e; [discriminate|].
  rewrite mpc_loop_outcome. unfold line_108_error.
  intros Hr. injection Hr as <-.
  destruct (sol st) as [prev|].
  - right. split; [discriminate | reflexivity].
  - left. split; reflexivity.
Qed.

End MPCLoopFacts.

(** X17: [mpc_controller] returns a result exactly when [horizon_length] is
    0, and the result is then the initial state alone, no control and a
    total cost of 0. *)
Theorem mpc_controller_returns_iff :
  forall (ipopt : Opti -> option Values) (predict : State -> R)
         (N : nat) (Q : Mat4) (Rm : Mat2)
         (x_init : State) (dt : R) (horizon_length : nat),
    ((exists r,
        mpc_controller ipopt predict N Q Rm x_init dt horizon_length = Return r)
     <-> horizon_length = 0%nat) /\
    mpc_controller ipopt predict N Q Rm x_init dt 0
      = Return ([x_init], [], 0).
Proof.
  intros ipopt predict N Q Rm x_init dt H. split; [|reflexivity]. split.
  - intros [r Hr]. destruct H as [|H]; [reflexivity|].
    rewrite mpc_controller_first_raise in Hr. discriminate.
  - intros ->. eexists. reflexivity.
Qed.

(** X18: the loop fails in two ways only.  Entered with [sol] unbound it
    raises [UnboundLocalError]; entered with [sol] bound it can only raise
    [RuntimeError].  In both cases the exception is all that comes back:
    the trajectories built so far are not returned. *)
Theorem mpc_loop_failure_kinds :
  forall (ipopt : Opti -> option Values) (predict : State -> R)
         (N : nat) (Q : Mat4) (Rm : Mat2)
         (H : nat) (st : MpcState) (e : exn),
    mpc_loop ipopt predict N Q Rm H st = Raise e ->
    (sol st = None /\ e = UnboundLocalError) \/
    (sol st <> None /\ e = RuntimeError).
Proof.
  intros ipopt predict N Q Rm H st e. apply mpc_loop_raise.
Qed.

Lemma mpc_loop_failure_kinds_witness :
  mpc_loop (fun _ => None) (fun _ => 0) 1 (diag4 10 10 10 10) (diag2 1 1)
           3 st_running = Raise RuntimeError /\
  ((sol st_running = None /\ RuntimeError = UnboundLocalError) \/
   (sol st_running <> None /\ RuntimeError = RuntimeError)).
Proof.
  split; [reflexivity|].
  apply (mpc_loop_failure_kinds (fun _ => None) (fun _ => 0) 1
           (diag4 10 10 10 10) (diag2 1 1) 3 st_running RuntimeError).
  reflexivity.
Defined.

(** ** The main block *)

(** X20: the main block never plots and never prints a total cost.  When no
    sample was generated it prints the no-samples message; otherwise it
    trains, draws an initial state and calls [mpc_controller] with
    [horizon_length = 20], which raises [UnboundLocalError]. *)
Theorem main_never_plots :
  forall (ipopt : Opti -> option Values)
         (rng : Type) (uniform : R -> R -> rng -> State * rng)
         (train_neural_network :
            list State -> list R -> rng -> (State -> R) * rng)
         (gen : rng),
  exists X Y,
    generate_ocp_samples ipopt rng uniform 1000 10
      (diag4 10 10 10 10) (diag2 1 1) gen = Return (X, Y) /\
    MainBlock.main ipopt rng uniform train_neural_network gen =
      match X with
      | [] => Return [MainBlock.PrintLine MainBlock.no_samples_message]
      | _ :: _ => Raise UnboundLocalError
      end.
Proof.
  intros ipopt rng uniform train gen.
  unfold MainBlock.main.
  rewrite generate_unfold.
  eexists. eexists. split; [reflexivity|].
  destruct (map fst _) as [|x0 X]; [reflexivity|].
  destruct (train _ _ _) as [model gen2].
  destruct (uniform (-1.5) 1.5 gen2) as [x_init gen3].
  change 20%nat with (S 19).
  rewrite mpc_controller_first_raise. reflexivity.
Qed.
